(** * TimeSeriesImputerTransformer: the batch adapter of the time-series imputer

    A shallow embedding of
    [onnxruntime/featurizers_ops/cpu/time_series_imputer_transformer.cc]:
    the value codec of namespace [timeseries_imputer_details], the
    marshalling loop of [TimeSeriesImputerTransformerImpl<T>::operator()]
    and the validation of [TimeSeriesImputerTransformer::Compute]. *)

From Stdlib Require Import ZArith NArith PArith List String Ascii Bool Lia.
From Stdlib Require Import SpecFloat DecimalString DecimalN.
Import ListNotations.

#[local] Open Scope string_scope.

(** ** Statuses and exceptions *)

(** [common::StatusCode], the two codes this kernel produces. *)
Inductive StatusCode : Type :=
| FAIL
| INVALID_ARGUMENT.

(** [common::Status]: either OK or an error code with the message given
    where it is made (the macros add the failed condition and the source
    location to it). *)
Inductive Status : Type :=
| Status_OK
| Status_Error (code : StatusCode) (msg : string).

(** What the code can throw:
    - [NotConvertible]: the [ORT_THROW] of [FromString<float>] and
      [FromString<double>], with the target type and the offending string;
    - [EnforceKeys], [EnforceColumns]: the two [ORT_ENFORCE] of the output
      loop, with the size found and the size expected;
    - [TensorTypeMismatch]: [Tensor::Data<T>] asked for another element type
      than the tensor holds;
    - [EngineThrew]: whatever the featurizer library throws out of the
      transformer's constructor, [execute] or [flush], with its [what()]. *)
Inductive Exception : Type :=
| NotConvertible (target : string) (val : string)
| EnforceKeys (got : nat) (expected : Z)
| EnforceColumns (got : nat) (expected : Z)
| TensorTypeMismatch
| EngineThrew (what : string).

(** A computation that returns or throws. *)
Inductive result (A : Type) : Type :=
| Ok (a : A)
| Throw (e : Exception).

Arguments Ok {A} a.
Arguments Throw {A} e.

(** ** The C library as the codec uses it *)

(** [strtof], [strtod], [isspace] and [sprintf] with [%f] as ISO C describes
    them, in the C locale and with correct rounding (to nearest, ties to
    even), over the binary formats of [SpecFloat]; where ISO C leaves the
    style of a NaN to the implementation, as glibc has it ([nan], and
    [-nan] when the sign bit is set). *)
Module CLib.

(** [std::string::c_str]: the characters up to the first NUL. *)
Fixpoint c_str (s : string) : string :=
  match s with
  | EmptyString => EmptyString
  | String c s' => if Ascii.eqb c zero then EmptyString else String c (c_str s')
  end.

(** [isspace] in the C locale. *)
Definition isspace (c : ascii) : bool :=
  let n := nat_of_ascii c in
  Nat.eqb n 32 || (Nat.leb 9 n && Nat.leb n 13).

Definition dec_digit (c : ascii) : option N :=
  let n := N_of_ascii c in
  if (48 <=? n)%N && (n <=? 57)%N then Some (n - 48)%N else None.

Definition hex_digit (c : ascii) : option N :=
  let n := N_of_ascii c in
  if (48 <=? n)%N && (n <=? 57)%N then Some (n - 48)%N
  else if (97 <=? n)%N && (n <=? 102)%N then Some (n - 87)%N
  else if (65 <=? n)%N && (n <=? 70)%N then Some (n - 55)%N
  else None.

(** The characters a NaN payload [nan(n-char-sequence)] may hold. *)
Definition nchar (c : ascii) : bool :=
  let n := N_of_ascii c in
  ((48 <=? n)%N && (n <=? 57)%N) || ((97 <=? n)%N && (n <=? 122)%N)
  || ((65 <=? n)%N && (n <=? 90)%N) || (n =? 95)%N.

Definition tolower (c : ascii) : ascii :=
  let n := N_of_ascii c in
  if (65 <=? n)%N && (n <=? 90)%N then ascii_of_N (n + 32) else c.

Fixpoint skip_spaces (s : string) : nat * string :=
  match s with
  | String c s' =>
      if isspace c then let (n, r) := skip_spaces s' in (S n, r) else (0, s)
  | EmptyString => (0, s)
  end.

Definition scan_sign (s : string) : bool * nat * string :=
  match s with
  | String c s' =>
      if Ascii.eqb c "-" then (true, 1, s')
      else if Ascii.eqb c "+" then (false, 1, s')
      else (false, 0, s)
  | EmptyString => (false, 0, s)
  end.

(** The longest run of digits in [base]: its value on top of [acc], its
    length and what follows it. *)
Fixpoint scan_digits (base : N) (digit : ascii -> option N) (s : string)
    (acc : N) : N * nat * string :=
  match s with
  | String c s' =>
      match digit c with
      | Some d =>
          let '(v, n, r) := scan_digits base digit s' (acc * base + d)%N in
          (v, S n, r)
      | None => (acc, 0, s)
      end
  | EmptyString => (acc, 0, s)
  end.

(** A nonempty digit sequence optionally containing a radix character:
    the digits as one number, how many of them follow the point, the length
    and the rest. *)
Definition scan_mantissa (base : N) (digit : ascii -> option N) (s : string)
    : option (N * nat * nat * string) :=
  let '(m1, n1, r1) := scan_digits base digit s 0%N in
  match r1 with
  | String c r1' =>
      if Ascii.eqb c "." then
        let '(m2, n2, r2) := scan_digits base digit r1' m1 in
        if Nat.eqb (n1 + n2) 0 then None else Some (m2, n2, n1 + 1 + n2, r2)
      else if Nat.eqb n1 0 then None else Some (m1, 0, n1, r1)
  | EmptyString => if Nat.eqb n1 0 then None else Some (m1, 0, n1, r1)
  end.

(** An optional exponent part: the marker, an optional sign and at least
    one decimal digit; anything less is not part of the number. *)
Definition scan_exponent (lo up : ascii) (s : string) : Z * nat :=
  match s with
  | String c s' =>
      if Ascii.eqb c lo || Ascii.eqb c up then
        let '(neg, ns, s2) := scan_sign s' in
        let '(v, n, _) := scan_digits 10 dec_digit s2 0%N in
        if Nat.eqb n 0 then (0%Z, 0)
        else ((if neg then - Z.of_N v else Z.of_N v)%Z, 1 + ns + n)
      else (0%Z, 0)
  | EmptyString => (0%Z, 0)
  end.

(** [lit] (given in lower case) as a prefix of [s], ignoring case. *)
Fixpoint strip_prefix_ci (lit s : string) : option string :=
  match lit with
  | EmptyString => Some s
  | String l lit' =>
      match s with
      | String c s' =>
          if Ascii.eqb (tolower c) l then strip_prefix_ci lit' s' else None
      | EmptyString => None
      end
  end.

Fixpoint scan_nchars (s : string) : nat * string :=
  match s with
  | String c s' =>
      if nchar c then let (n, r) := scan_nchars s' in (S n, r) else (0, s)
  | EmptyString => (0, s)
  end.

(** The length of an optional [(n-char-sequence)] after [nan]. *)
Definition scan_nan_payload (s : string) : nat :=
  match s with
  | String c s' =>
      if Ascii.eqb c "(" then
        let (n, r) := scan_nchars s' in
        match r with
        | String c' _ => if Ascii.eqb c' ")" then n + 2 else 0
        | EmptyString => 0
        end
      else 0
  | EmptyString => 0
  end.

Section Format.
(** The binary format: [prec] bits of mantissa, infinities at [emax]. *)
Variables prec emax : Z.

(** [m * 10 ^ e10], correctly rounded to nearest even. *)
Definition round_decimal (neg : bool) (m : N) (e10 : Z) : spec_float :=
  match m with
  | N0 => S754_zero neg
  | Npos p =>
      if (0 <=? e10)%Z then
        binary_normalize prec emax (cond_Zopp neg (Zpos p * 10 ^ e10))%Z 0 neg
      else
        let '(q, e', l) :=
          SFdiv_core_binary prec emax (Zpos p) 0 (10 ^ (- e10))%Z 0 in
        binary_round_aux prec emax neg q e' l
  end.

Definition scan_special (neg : bool) (s : string) : option (spec_float * nat) :=
  match strip_prefix_ci "inf" s with
  | Some r =>
      match strip_prefix_ci "inity" r with
      | Some _ => Some (S754_infinity neg, 8)
      | None => Some (S754_infinity neg, 3)
      end
  | None =>
      match strip_prefix_ci "nan" s with
      | Some r => Some (S754_nan, 3 + scan_nan_payload r)
      | None => None
      end
  end.

Definition scan_hex (neg : bool) (s : string) : option (spec_float * nat) :=
  match s with
  | String c0 (String x s') =>
      if Ascii.eqb c0 "0" && Ascii.eqb (tolower x) "x" then
        match scan_mantissa 16 hex_digit s' with
        | Some (m, nfrac, n, r) =>
            let '(e, ne) := scan_exponent "p" "P" r in
            Some (binary_normalize prec emax (cond_Zopp neg (Z.of_N m))
                    (e - 4 * Z.of_nat nfrac)%Z neg,
                  2 + n + ne)
        | None => None
        end
      else None
  | _ => None
  end.

Definition scan_decimal (neg : bool) (s : string) : option (spec_float * nat) :=
  match scan_mantissa 10 dec_digit s with
  | Some (m, nfrac, n, r) =>
      let '(e, ne) := scan_exponent "e" "E" r in
      Some (round_decimal neg m (e - Z.of_nat nfrac)%Z, n + ne)
  | None => None
  end.

(** [strtod] / [strtof]: the converted value (of a NaN all but its sign
    bit, for which see [strto_nan_sign] below) and [str_end - str].  When
    no conversion can be performed the value is zero and [str_end = str]. *)
Definition strto (str : string) : spec_float * nat :=
  let '(nws, s1) := skip_spaces str in
  let '(neg, ns, s2) := scan_sign s1 in
  match scan_special neg s2 with
  | Some (v, n) => (v, nws + ns + n)
  | None =>
      match scan_hex neg s2 with
      | Some (v, n) => (v, nws + ns + n)
      | None =>
          match scan_decimal neg s2 with
          | Some (v, n) => (v, nws + ns + n)
          | None => (S754_zero false, 0)
          end
      end
  end.
End Format.

(** Whether [s] begins with a digit sequence that has at least one digit:
    a digit, or the radix character and a digit. *)
Definition starts_mantissa (digit : ascii -> option N) (s : string) : bool :=
  match s with
  | String c r =>
      match digit c with
      | Some _ => true
      | None =>
          Ascii.eqb c "." &&
          match r with
          | String d _ => match digit d with Some _ => true | None => false end
          | EmptyString => false
          end
      end
  | EmptyString => false
  end.

(** Whether [s] has the form [strtod] expects: after optional white space
    and an optional sign, [inf], [nan] (in any case) or the beginning of a
    decimal number. *)
Definition numeric_start (s : string) : bool :=
  let '(_, s1) := skip_spaces s in
  let '(_, _, s2) := scan_sign s1 in
  match strip_prefix_ci "inf" s2, strip_prefix_ci "nan" s2 with
  | None, None => starts_mantissa dec_digit s2
  | _, _ => true
  end.

(** A string that is a number and nothing else: [strtod] converts it and
    stops at its end. *)
Definition whole_number (prec emax : Z) (s : string) : bool :=
  let n := snd (strto prec emax s) in
  negb (Nat.eqb n 0) && Nat.eqb n (String.length s).

(** [n / d] rounded to nearest, ties to even. *)
Definition div_round_even (n d : N) : N :=
  let q := (n / d)%N in
  match (2 * (n mod d) ?= d)%N with
  | Lt => q
  | Gt => (q + 1)%N
  | Eq => if N.even q then q else (q + 1)%N
  end.

(** [|m * 2^e|] in millionths, rounded to nearest even. *)
Definition millionths (m : positive) (e : Z) : N :=
  match e with
  | Zneg k => div_round_even (Npos m * 1000000) (2 ^ Npos k)
  | _ => (Npos m * 2 ^ Z.to_N e * 1000000)%N
  end.

Definition decimal (n : N) : string := NilZero.string_of_uint (N.to_uint n).

Definition digit_char (d : N) : ascii := ascii_of_N (48 + d mod 10).

Definition six_digits (n : N) : string :=
  String (digit_char (n / 100000))
    (String (digit_char (n / 10000))
      (String (digit_char (n / 1000))
        (String (digit_char (n / 100))
          (String (digit_char (n / 10))
            (String (digit_char n) EmptyString))))).

Definition sign_prefix (s : bool) : string := if s then "-" else "".

(** [spec_float] has one NaN and no sign for it.  The C library tells a
    NaN whose sign bit is set from one whose sign bit is clear: [printf]
    writes the first as [-nan], and [strtod] returns it for [-nan].  So the
    bit travels beside the [spec_float]: [format_f] takes it, and
    [strto_nan_sign] gives it.  Payloads are not told apart; neither
    [printf] nor anything in the codec reads them. *)

(** The sign bit of the NaN [strtod] returns when it returns one: set when
    the subject sequence has a minus sign. *)
Definition strto_nan_sign (str : string) : bool :=
  let '(_, s1) := skip_spaces str in
  let '(neg, _, _) := scan_sign s1 in
  neg.

(** [sprintf("%f", v)], which is what [std::to_string] returns for
    [float] (promoted to [double]) and [double]; [nan_sign] is the sign
    bit of [v] when [v] is a NaN. *)
Definition format_f (nan_sign : bool) (v : spec_float) : string :=
  match v with
  | S754_nan => sign_prefix nan_sign ++ "nan"
  | S754_infinity s => sign_prefix s ++ "inf"
  | S754_zero s => sign_prefix s ++ "0.000000"
  | S754_finite s m e =>
      let q := millionths m e in
      sign_prefix s ++ decimal (q / 1000000) ++ "."
        ++ six_digits (q mod 1000000)
  end.

End CLib.

#[local] Open Scope list_scope.

(** ** Scalars *)

(** IEEE binary32 and binary64 values.  The one NaN of [spec_float] stands
    for the NaNs whose sign bit is clear, [quiet_NaN()] among them;
    [Float_minus_nan] and [Double_minus_nan] stand for the NaNs whose sign
    bit is set. *)
Inductive float : Type :=
| Float (v : spec_float)
| Float_minus_nan.

Inductive double : Type :=
| Double (v : spec_float)
| Double_minus_nan.

Definition float_val (v : float) : spec_float :=
  match v with
  | Float x => x
  | Float_minus_nan => S754_nan
  end.

Definition double_val (v : double) : spec_float :=
  match v with
  | Double x => x
  | Double_minus_nan => S754_nan
  end.

(** The sign bit of a NaN. *)
Definition float_nan_sign (v : float) : bool :=
  match v with
  | Float _ => false
  | Float_minus_nan => true
  end.

Definition double_nan_sign (v : double) : bool :=
  match v with
  | Double _ => false
  | Double_minus_nan => true
  end.

Definition is_nan (v : spec_float) : bool :=
  match v with
  | S754_nan => true
  | _ => false
  end.

(** The value made of a [spec_float] and the sign bit for its NaN. *)
Definition float_of (nan_sign : bool) (v : spec_float) : float :=
  if is_nan v && nan_sign then Float_minus_nan else Float v.

Definition double_of (nan_sign : bool) (v : spec_float) : double :=
  if is_nan v && nan_sign then Double_minus_nan else Double v.

(** What the primary templates of the codec ask of an arithmetic type:
    [std::isnan], [std::to_string] and
    [std::numeric_limits<T>::quiet_NaN]. *)
Class Arithmetic (T : Type) : Type := {
  isnan : T -> bool;
  to_string : T -> string;
  quiet_NaN : T
}.

#[export] Instance float_arithmetic : Arithmetic float := {|
  isnan v := is_nan (float_val v);
  to_string v := CLib.format_f (float_nan_sign v) (float_val v);
  quiet_NaN := Float S754_nan
|}.

#[export] Instance double_arithmetic : Arithmetic double := {|
  isnan v := is_nan (double_val v);
  to_string v := CLib.format_f (double_nan_sign v) (double_val v);
  quiet_NaN := Double S754_nan
|}.

Definition strtof (str : string) : float * nat :=
  let (v, n) := CLib.strto 24 128 str in
  (float_of (CLib.strto_nan_sign str) v, n).

Definition strtod (str : string) : double * nat :=
  let (v, n) := CLib.strto 53 1024 str in
  (double_of (CLib.strto_nan_sign str) v, n).

(** ** Signed 64-bit integers *)

Definition int64_min : Z := (- 2 ^ 63)%Z.
Definition int64_max : Z := (2 ^ 63 - 1)%Z.

(** The value a two's-complement 64-bit register holds for [z]. *)
Definition wrap64 (z : Z) : Z := ((z - int64_min) mod 2 ^ 64 + int64_min)%Z.

(** ** namespace timeseries_imputer_details *)

Module timeseries_imputer_details.

(** A [std::chrono::system_clock::time_point] as its count of clock ticks
    since the epoch. *)
Definition time_point : Type := Z.

Section Clock.
(** The ticks of [system_clock] in one second. *)
Variable ticks_per_second : Z.

(** [system_clock::from_time_t]: the seconds become ticks by a
    multiplication in the clock's representation, a signed 64-bit integer.
    A product beyond its range is undefined in C++; in the usual builds it
    wraps around, and so it does here. *)
Definition ToTimePoint (secs : Z) : time_point :=
  wrap64 (secs * ticks_per_second).

(** The timestamps [from_time_t] converts without overflow. *)
Definition in_clock_range (secs : Z) : Prop :=
  (int64_min <= secs * ticks_per_second <= int64_max)%Z.

(** [duration_cast<seconds>] truncates towards zero. *)
Definition ToSecs (tp : time_point) : Z := Z.quot tp ticks_per_second.
End Clock.

(** The primary template [ToString<T>]. *)
Definition ToString_primary {T : Type} `{Arithmetic T} (val : T) : string :=
  to_string val.

(** [ToString<std::string>]. *)
Definition ToString_string (val : string) : string := val.

(** The primary template [ToStringOptional<T>]. *)
Definition ToStringOptional_primary {T : Type} `{Arithmetic T} (val : T)
    : option string :=
  if isnan val then None else Some (to_string val).

Definition empty (val : string) : bool :=
  match val with
  | EmptyString => true
  | String _ _ => false
  end.

(** [ToStringOptional<std::string>]. *)
Definition ToStringOptional_string (val : string) : option string :=
  if empty val then None else Some val.

(** [FromString<std::string>]. *)
Definition FromString_string (val : string) : result string := Ok val.

(** [FromString<float>]. *)
Definition FromString_float (val : string) : result float :=
  let str := CLib.c_str val in
  let (result, str_end) := strtof str in
  if Nat.eqb str_end 0 then Throw (NotConvertible "float" val) else Ok result.

(** [FromString<double>]. *)
Definition FromString_double (val : string) : result double :=
  let str := CLib.c_str val in
  let (result, str_end) := strtod str in
  if Nat.eqb str_end 0 then Throw (NotConvertible "double" val) else Ok result.

(** The primary template [FromStringOptional<T>], over [FromString<T>]. *)
Definition FromStringOptional_primary {T : Type} `{Arithmetic T}
    (FromString : string -> result T) (val : option string) : result T :=
  match val with
  | Some s => FromString s
  | None => Ok quiet_NaN
  end.

(** [FromStringOptional<std::string>]. *)
Definition FromStringOptional_string (val : option string) : result string :=
  match val with
  | Some s => Ok s
  | None => Ok EmptyString
  end.

(** The four functors at one scalar type [T]. *)
Class Codec (T : Type) : Type := {
  ToString : T -> string;
  ToStringOptional : T -> option string;
  FromString : string -> result T;
  FromStringOptional : option string -> result T
}.

#[export] Instance string_codec : Codec string := {|
  ToString := ToString_string;
  ToStringOptional := ToStringOptional_string;
  FromString := FromString_string;
  FromStringOptional := FromStringOptional_string
|}.

#[export] Instance float_codec : Codec float := {|
  ToString := ToString_primary;
  ToStringOptional := ToStringOptional_primary;
  FromString := FromString_float;
  FromStringOptional := FromStringOptional_primary FromString_float
|}.

#[export] Instance double_codec : Codec double := {|
  ToString := ToString_primary;
  ToStringOptional := ToStringOptional_primary;
  FromString := FromString_double;
  FromStringOptional := FromStringOptional_primary FromString_double
|}.

End timeseries_imputer_details.

Import timeseries_imputer_details.

(** ** Tensors *)

Inductive MLDataType : Type :=
| type_uint8
| type_int64
| type_bool
| type_string
| type_float
| type_double.

Definition MLDataType_eqb (a b : MLDataType) : bool :=
  match a, b with
  | type_uint8, type_uint8 | type_int64, type_int64 | type_bool, type_bool
  | type_string, type_string | type_float, type_float
  | type_double, type_double => true
  | _, _ => false
  end.

(** The elements of a tensor, tagged with their type. *)
Inductive TensorBuffer : Type :=
| uint8_data (l : list Byte.byte)
| int64_data (l : list Z)
| bool_data (l : list bool)
| string_data (l : list string)
| float_data (l : list float)
| double_data (l : list double).

Definition TensorShape : Type := list Z.

Record Tensor : Type := {
  Shape : TensorShape;
  Buffer : TensorBuffer
}.

Definition NumDimensions (shape : TensorShape) : nat := List.length shape.

(** [shape[i]]. *)
Definition dim (shape : TensorShape) (i : nat) : Z := nth i shape 0%Z.

(** [TensorShape::Size]: the number of elements. *)
Definition Size (shape : TensorShape) : Z := fold_right Z.mul 1%Z shape.

Definition GetElementType (t : Tensor) : MLDataType :=
  match Buffer t with
  | uint8_data _ => type_uint8
  | int64_data _ => type_int64
  | bool_data _ => type_bool
  | string_data _ => type_string
  | float_data _ => type_float
  | double_data _ => type_double
  end.

(** [Tensor::Data<T>] (declared in core/framework/tensor.h): the elements,
    when the tensor holds [T]s; the accessor enforces the element type. *)
Class TensorElement (T : Type) : Type := {
  Data : Tensor -> result (list T)
}.

Definition Data_uint8 (t : Tensor) : result (list Byte.byte) :=
  match Buffer t with
  | uint8_data l => Ok l
  | _ => Throw TensorTypeMismatch
  end.

Definition Data_int64 (t : Tensor) : result (list Z) :=
  match Buffer t with
  | int64_data l => Ok l
  | _ => Throw TensorTypeMismatch
  end.

#[export] Instance string_element : TensorElement string := {|
  Data t := match Buffer t with
            | string_data l => Ok l
            | _ => Throw TensorTypeMismatch
            end
|}.

#[export] Instance float_element : TensorElement float := {|
  Data t := match Buffer t with
            | float_data l => Ok l
            | _ => Throw TensorTypeMismatch
            end
|}.

#[export] Instance double_element : TensorElement double := {|
  Data t := match Buffer t with
            | double_data l => Ok l
            | _ => Throw TensorTypeMismatch
            end
|}.

(** The four inputs of the kernel, [ctx->Input<Tensor>(0..3)]. *)
Record Inputs : Type := {
  input_state : Tensor;
  input_times : Tensor;
  input_keys : Tensor;
  input_data : Tensor
}.

(** [p[start .. start + len)] of a flat buffer. *)
Definition slice {A : Type} (p : list A) (start len : Z) : list A :=
  firstn (Z.to_nat len) (skipn (Z.to_nat start) p).

(** ** The imputation engine, by its interface *)

(** The tuple [execute] takes and the tuple the callback receives. *)
Definition InputRow : Type := time_point * list string * list (option string).
Definition OutputType : Type :=
  bool * time_point * list string * list (option string).

(** [std::get<0>] to [std::get<3>] of an emitted row. *)
Definition row_added (out : OutputType) : bool :=
  let '(added, _, _, _) := out in added.
Definition row_time (out : OutputType) : time_point :=
  let '(_, tp, _, _) := out in tp.
Definition row_keys (out : OutputType) : list string :=
  let '(_, _, imputed_keys, _) := out in imputed_keys.
Definition row_values (out : OutputType) : list (option string) :=
  let '(_, _, _, imputed_data) := out in imputed_data.

(** How a call into the featurizer library ends: it returns, or it throws
    an exception of the library's own, with its [what()]. *)
Inductive engine_result (A : Type) : Type :=
| Returns (a : A)
| Throws (what : string).

Arguments Returns {A} a.
Arguments Throws {A} what.

Definition of_engine {A : Type} (r : engine_result A) : result A :=
  match r with
  | Returns a => Ok a
  | Throws what => Throw (EngineThrew what)
  end.

(** [ft::Components::TimeSeriesImputerEstimator::Transformer] lives in the
    featurizer library.  Of it the adapter uses the constructor from an
    archive over the state image, [execute] and [flush]; each call hands
    rows to the callback, in order, and then returns or throws. *)
Class Engine (Transformer : Type) : Type := {
  construct : list Byte.byte -> engine_result Transformer;
  execute :
    Transformer -> InputRow -> list OutputType * engine_result Transformer;
  flush : Transformer -> list OutputType * engine_result Transformer
}.

(** The calls made on the engine, recorded as they happen. *)
Inductive Call : Type :=
| ConstructCall (image : list Byte.byte)
| ExecuteCall (row : InputRow)
| FlushCall.

(** ** The state one invocation works on *)

(** [calls] is the record of engine calls; [output_rows] the vector the
    callback appends to; [output_shapes] the shapes [ctx->Output] was
    called with, once it has been; the four [_output] fields hold what has
    been written through the four output pointers so far. *)
Record World (T : Type) : Type := {
  calls : list Call;
  output_rows : list OutputType;
  output_shapes : option (TensorShape * TensorShape * TensorShape);
  added_output : list bool;
  time_output : list Z;
  keys_output : list T;
  data_output : list T
}.

Arguments calls {T} w.
Arguments output_rows {T} w.
Arguments output_shapes {T} w.
Arguments added_output {T} w.
Arguments time_output {T} w.
Arguments keys_output {T} w.
Arguments data_output {T} w.

Definition initial_world (T : Type) : World T :=
  {| calls := []; output_rows := []; output_shapes := None;
     added_output := []; time_output := []; keys_output := [];
     data_output := [] |}.

Section WorldUpdates.
Context {T : Type}.

Definition record_call (c : Call) (w : World T) : World T :=
  {| calls := calls w ++ [c]; output_rows := output_rows w;
     output_shapes := output_shapes w; added_output := added_output w;
     time_output := time_output w; keys_output := keys_output w;
     data_output := data_output w |}.

Definition emplace_back (value : OutputType) (w : World T) : World T :=
  {| calls := calls w; output_rows := output_rows w ++ [value];
     output_shapes := output_shapes w; added_output := added_output w;
     time_output := time_output w; keys_output := keys_output w;
     data_output := data_output w |}.

Definition allocate (shapes : TensorShape * TensorShape * TensorShape)
    (w : World T) : World T :=
  {| calls := calls w; output_rows := output_rows w;
     output_shapes := Some shapes; added_output := []; time_output := [];
     keys_output := []; data_output := [] |}.

Definition write_added (b : bool) (w : World T) : World T :=
  {| calls := calls w; output_rows := output_rows w;
     output_shapes := output_shapes w; added_output := added_output w ++ [b];
     time_output := time_output w; keys_output := keys_output w;
     data_output := data_output w |}.

Definition write_time (t : Z) (w : World T) : World T :=
  {| calls := calls w; output_rows := output_rows w;
     output_shapes := output_shapes w; added_output := added_output w;
     time_output := time_output w ++ [t]; keys_output := keys_output w;
     data_output := data_output w |}.

Definition write_key (k : T) (w : World T) : World T :=
  {| calls := calls w; output_rows := output_rows w;
     output_shapes := output_shapes w; added_output := added_output w;
     time_output := time_output w; keys_output := keys_output w ++ [k];
     data_output := data_output w |}.

Definition write_data (d : T) (w : World T) : World T :=
  {| calls := calls w; output_rows := output_rows w;
     output_shapes := output_shapes w; added_output := added_output w;
     time_output := time_output w; keys_output := keys_output w;
     data_output := data_output w ++ [d] |}.
End WorldUpdates.

(** ** State and exceptions *)

(** A step of the invocation: it changes the world and returns or throws;
    what was done before a throw stays done. *)
Definition M (W A : Type) : Type := W -> W * result A.

Definition ret {W A : Type} (a : A) : M W A := fun w => (w, Ok a).

Definition bind {W A B : Type} (m : M W A) (k : A -> M W B) : M W B :=
  fun w =>
    match m w with
    | (w', Ok a) => k a w'
    | (w', Throw e) => (w', Throw e)
    end.

Definition lift {W A : Type} (r : result A) : M W A := fun w => (w, r).

Definition modify {W : Type} (f : W -> W) : M W unit := fun w => (f w, Ok tt).

Definition gets {W A : Type} (f : W -> A) : M W A := fun w => (w, Ok (f w)).

Declare Scope imputer_scope.
Delimit Scope imputer_scope with imputer.
Notation "x <- m ;; k" := (bind m (fun x => k))
  (at level 61, m at next level, right associativity) : imputer_scope.
Notation "m ;;; k" := (bind m (fun _ => k))
  (at level 61, right associativity) : imputer_scope.

#[local] Open Scope imputer_scope.

Fixpoint for_each {W A : Type} (body : A -> M W unit) (l : list A) : M W unit :=
  match l with
  | [] => ret tt
  | x :: l' => body x ;;; for_each body l'
  end.

(** [ORT_ENFORCE(cond, ...)]: throws unless [cond]. *)
Definition enforce {W : Type} (cond : bool) (e : Exception) : M W unit :=
  if cond then ret tt else lift (Throw e).

(** ** TimeSeriesImputerTransformerImpl<T> and the kernel *)

Section Kernel.
Context {Transformer : Type} {engine : Engine Transformer}.

(** The ticks of [std::chrono::system_clock] in one second. *)
Variable ticks_per_second : Z.

Section Template.
Context {T : Type} {codec : Codec T} {element : TensorElement T}.

(** The lambda [callback_fn]. *)
Definition callback_fn (value : OutputType) : M (World T) unit :=
  modify (emplace_back value).

(** [Archive archive(...); Transformer transformer(archive)]. *)
Definition new_transformer (archive : list Byte.byte)
    : M (World T) Transformer :=
  modify (record_call (ConstructCall archive)) ;;;
  lift (of_engine (construct archive)).

(** [transformer.execute(tuple_row, callback_fn)]. *)
Definition call_execute (transformer : Transformer) (tuple_row : InputRow)
    : M (World T) Transformer :=
  modify (record_call (ExecuteCall tuple_row)) ;;;
  for_each callback_fn (fst (execute transformer tuple_row)) ;;;
  lift (of_engine (snd (execute transformer tuple_row))).

(** [transformer.flush(callback_fn)]. *)
Definition call_flush (transformer : Transformer) : M (World T) Transformer :=
  modify (record_call FlushCall) ;;;
  for_each callback_fn (fst (flush transformer)) ;;;
  lift (of_engine (snd (flush transformer))).

(** The observation built from input row [row]; [timestamp] is
    [*times_data]. *)
Definition make_tuple_row (keys_data data_data : list T)
    (keys_per_row columns : Z) (row : Z) (timestamp : Z) : InputRow :=
  let str_keys :=
    map ToString (slice keys_data (row * keys_per_row) keys_per_row) in
  let str_data :=
    map ToStringOptional (slice data_data (row * columns) columns) in
  (ToTimePoint ticks_per_second timestamp, str_keys, str_data).

(** The loop [for (row = 0; row < rows; ++row)], with [n] rows to go. *)
Fixpoint feed_rows (n : nat) (row : Z) (times_data : list Z)
    (keys_data data_data : list T) (keys_per_row columns : Z)
    (transformer : Transformer) : M (World T) Transformer :=
  match n with
  | O => ret transformer
  | S n' =>
      let tuple_row :=
        make_tuple_row keys_data data_data keys_per_row columns row
          (hd 0%Z times_data) in
      transformer' <- call_execute transformer tuple_row ;;
      feed_rows n' (row + 1) (tl times_data) keys_data data_data
        keys_per_row columns transformer'
  end.

(** One turn of the loop over [output_rows]. *)
Definition write_row (keys_per_row columns : Z) (out : OutputType)
    : M (World T) unit :=
  let '(added, tp, imputed_keys, imputed_data) := out in
  modify (write_added added) ;;;
  modify (write_time (ToSecs ticks_per_second tp)) ;;;
  enforce (Z.of_nat (List.length imputed_keys) =? keys_per_row)%Z
          (EnforceKeys (List.length imputed_keys) keys_per_row) ;;;
  enforce (Z.of_nat (List.length imputed_data) =? columns)%Z
          (EnforceColumns (List.length imputed_data) columns) ;;;
  for_each (fun s => k <- lift (FromString s) ;; modify (write_key k))
           imputed_keys ;;;
  for_each (fun o => d <- lift (FromStringOptional o) ;; modify (write_data d))
           imputed_data.

(** [TimeSeriesImputerTransformerImpl<T>::operator()]. *)
Definition TimeSeriesImputerTransformerImpl (ctx : Inputs) (rows : Z)
    : M (World T) unit :=
  let state := input_state ctx in
  state_data <- lift (Data_uint8 state) ;;
  let times := input_times ctx in
  let keys := input_keys ctx in
  let data := input_data ctx in
  let keys_per_row := dim (Shape keys) 1 in
  let columns := dim (Shape data) 1 in
  transformer <-
    new_transformer (firstn (Z.to_nat (Size (Shape state))) state_data) ;;
  times_data <- lift (Data_int64 times) ;;
  keys_data <- lift (Data keys) ;;
  data_data <- lift (Data data) ;;
  transformer' <-
    feed_rows (Z.to_nat rows) 0 times_data keys_data data_data
      keys_per_row columns transformer ;;
  call_flush transformer' ;;;
  rows_out <- gets output_rows ;;
  let output_rows_num := Z.of_nat (List.length rows_out) in
  modify (allocate ([output_rows_num],
                    [output_rows_num; keys_per_row],
                    [output_rows_num; columns])) ;;;
  for_each (write_row keys_per_row columns) rows_out.
End Template.

(** How [Compute] ends: with a status, or by an exception out of
    [TimeSeriesImputerTransformerImpl]. *)
Inductive Completion : Type :=
| Returned (s : Status)
| Thrown (e : Exception).

(** [TimeSeriesImputerTransformer::CheckBatches]. *)
Definition CheckBatches (rows : Z) (shape : TensorShape) : Status :=
  if Nat.eqb (NumDimensions shape) 2 then
    if (rows =? dim shape 0)%Z then Status_OK
    else Status_Error FAIL "Number of rows does not match"
  else Status_Error INVALID_ARGUMENT "Expect shape of [R][C]".

(** [TimeSeriesImputerTransformer::Compute]. *)
Definition Compute (ctx : Inputs) (w : World string)
    : World string * Completion :=
  let times := input_times ctx in
  let times_shape := Shape times in
  if negb (Nat.eqb (NumDimensions times_shape) 1) then
    (w, Returned (Status_Error FAIL "Times must have shape [B][R] or [R]"))
  else
    let rows := dim times_shape 0 in
    let keys := input_keys ctx in
    match CheckBatches rows (Shape keys) with
    | Status_Error code msg => (w, Returned (Status_Error code msg))
    | Status_OK =>
        let data := input_data ctx in
        match CheckBatches rows (Shape data) with
        | Status_Error code msg => (w, Returned (Status_Error code msg))
        | Status_OK =>
            let data_type := GetElementType data in
            if negb (MLDataType_eqb (GetElementType keys) data_type) then
              (w, Returned
                    (Status_Error FAIL
                       "Keys and data must have the same datatype"))
            else
              match
                TimeSeriesImputerTransformerImpl (T := string) ctx rows w
              with
              | (w', Ok _) => (w', Returned Status_OK)
              | (w', Throw e) => (w', Thrown e)
              end
        end
    end.
End Kernel.

(** The type constraints of the kernel registration. *)
Definition kernel_type_constraints : list (string * MLDataType) :=
  [("T0", type_uint8); ("T1", type_int64); ("T2", type_string)].

Definition constraint_of (name : string) : option MLDataType :=
  option_map snd
    (find (fun c => String.eqb (fst c) name) kernel_type_constraints).

(** Modelled from the spec: the operator schema that binds each input to a
    type parameter is not in this file.  The state image is bytes ([T0]),
    the timestamps are signed 64-bit ([T1]), and keys and data share one
    scalar type ([T2]). *)
Definition accepted_by_kernel (ctx : Inputs) : Prop :=
  constraint_of "T0" = Some (GetElementType (input_state ctx)) /\
  constraint_of "T1" = Some (GetElementType (input_times ctx)) /\
  constraint_of "T2" = Some (GetElementType (input_keys ctx)) /\
  constraint_of "T2" = Some (GetElementType (input_data ctx)).

(** What [Compute] checks before it does anything else. *)
Definition valid_inputs (ctx : Inputs) : Prop :=
  NumDimensions (Shape (input_times ctx)) = 1 /\
  NumDimensions (Shape (input_keys ctx)) = 2 /\
  dim (Shape (input_keys ctx)) 0 = dim (Shape (input_times ctx)) 0 /\
  NumDimensions (Shape (input_data ctx)) = 2 /\
  dim (Shape (input_data ctx)) 0 = dim (Shape (input_times ctx)) 0 /\
  GetElementType (input_keys ctx) = GetElementType (input_data ctx).

(** ** Example values *)

(** The double [2^-30]. *)
Definition tiny_double : double :=
  Double (S754_finite false 4503599627370496 (-82)).

(** The float [2^-30]. *)
Definition tiny_float : float := Float (S754_finite false 8388608 (-53)).

(** The double [12]. *)
Definition twelve : double := Double (S754_finite false 6755399441055744 (-49)).

(** ** Example engines and inputs *)

(** An engine that plays a script: every call emits the next batch of the
    script, whatever it is given. *)
Definition scripted_engine (script : list (list OutputType))
    : Engine (list (list OutputType)) := {|
  construct _ := Returns script;
  execute tr _ := (hd [] tr, Returns (tl tr));
  flush tr := (hd [] tr, Returns (tl tr))
|}.

(** An engine that hands every observation back as it comes. *)
Definition echo_engine : Engine unit := {|
  construct _ := Returns tt;
  execute tr row :=
    let '(tp, keys, data) := row in ([(false, tp, keys, data)], Returns tr);
  flush tr := ([], Returns tr)
|}.

Definition string_tensor (shape : TensorShape) (l : list string) : Tensor :=
  {| Shape := shape; Buffer := string_data l |}.

(** Two rows for the key [A]: at [t = 0] the value [5.0], at [t = 2] no
    value. *)
Definition example_ctx : Inputs := {|
  input_state := {| Shape := [0%Z]; Buffer := uint8_data [] |};
  input_times := {| Shape := [2%Z]; Buffer := int64_data [0%Z; 2%Z] |};
  input_keys := string_tensor [2%Z; 1%Z] ["A"; "A"];
  input_data := string_tensor [2%Z; 1%Z] ["5.0"; ""]
|}.

(** What an imputer with a cadence of one second emits for [example_ctx],
    on a clock that ticks every nanosecond. *)
Definition example_script : list (list OutputType) :=
  [ [(false, 0%Z, ["A"], [Some "5.0"])];
    [(true, 1000000000%Z, ["A"], [Some "5.0"]);
     (false, 2000000000%Z, ["A"], [Some "5.0"])];
    [] ].

(** Scripts that emit as many rows as [example_ctx] has, and fewer. *)
Definition same_count_script : list (list OutputType) :=
  [ [(false, 0%Z, ["A"], [Some "5.0"])];
    [(false, 2000000000%Z, ["A"], [Some "5.0"])];
    [] ].

Definition fewer_rows_script : list (list OutputType) :=
  [ []; []; [(false, 2000000000%Z, ["A"], [Some "5.0"])] ].

(** [example_ctx] with timestamps of shape [2; 1]. *)
Definition misshapen_ctx : Inputs := {|
  input_state := input_state example_ctx;
  input_times := {| Shape := [2%Z; 1%Z]; Buffer := int64_data [0%Z; 2%Z] |};
  input_keys := input_keys example_ctx;
  input_data := input_data example_ctx
|}.

(** The invocation on [example_ctx], with the engine playing
    [example_script]. *)
Definition example_run : World string * result unit :=
  TimeSeriesImputerTransformerImpl (engine := scripted_engine example_script)
    (T := string) 1000000000 example_ctx 2 (initial_world string).

(** ** What the statements below speak of *)

Section Vocabulary.
Context {Transformer : Type} {engine : Engine Transformer}.
Context {T : Type} {codec : Codec T}.
Variable ticks_per_second : Z.

(** The world after the engine was called with [cs] and emitted [rows]. *)
Definition engine_activity (cs : list Call) (rows : list OutputType)
    (w : World T) : World T :=
  {| calls := calls w ++ cs; output_rows := output_rows w ++ rows;
     output_shapes := output_shapes w; added_output := added_output w;
     time_output := time_output w; keys_output := keys_output w;
     data_output := data_output w |}.

(** The world after [added], [times], [keys] and [data] were written
    through the four output pointers. *)
Definition written (added : list bool) (times : list Z) (keys data : list T)
    (w : World T) : World T :=
  {| calls := calls w; output_rows := output_rows w;
     output_shapes := output_shapes w; added_output := added_output w ++ added;
     time_output := time_output w ++ times;
     keys_output := keys_output w ++ keys;
     data_output := data_output w ++ data |}.

(** The observation of input row [i]: its timestamp, its [keys_per_row]
    key cells and its [columns] data cells, each through the codec. *)
Definition observation (times_data : list Z) (keys_data data_data : list T)
    (keys_per_row columns : Z) (i : nat) : InputRow :=
  (ToTimePoint ticks_per_second (nth i times_data 0%Z),
   map ToString (slice keys_data (Z.of_nat i * keys_per_row) keys_per_row),
   map ToStringOptional (slice data_data (Z.of_nat i * columns) columns)).

(** The observations of rows [0 .. n - 1], in that order. *)
Definition observations (times_data : list Z) (keys_data data_data : list T)
    (keys_per_row columns : Z) (n : nat) : list InputRow :=
  map (observation times_data keys_data data_data keys_per_row columns)
      (seq 0 n).

(** The engine on its own, given [obs] one after the other: the rows it
    emits, in order, and how the last call made ended. *)
Fixpoint run_executes (tr : Transformer) (obs : list InputRow)
    : list OutputType * engine_result Transformer :=
  match obs with
  | [] => ([], Returns tr)
  | o :: rest =>
      match snd (execute tr o) with
      | Returns tr' =>
          (fst (execute tr o) ++ fst (run_executes tr' rest),
           snd (run_executes tr' rest))
      | Throws what => (fst (execute tr o), Throws what)
      end
  end.

(** The observations [execute] is called with: all of them, or those up to
    the call that throws. *)
Fixpoint executed (tr : Transformer) (obs : list InputRow) : list InputRow :=
  match obs with
  | [] => []
  | o :: rest =>
      o :: match snd (execute tr o) with
           | Returns tr' => executed tr' rest
           | Throws _ => []
           end
  end.

(** The elements of [l] that [f] decodes before it throws, if it does. *)
Fixpoint decoded {A : Type} (f : A -> result T) (l : list A) : list T :=
  match l with
  | [] => []
  | x :: l' =>
      match f x with
      | Ok y => y :: decoded f l'
      | Throw _ => []
      end
  end.

(** How decoding [l] with [f] ends. *)
Fixpoint decoding {A : Type} (f : A -> result T) (l : list A) : result unit :=
  match l with
  | [] => Ok tt
  | x :: l' =>
      match f x with
      | Ok _ => decoding f l'
      | Throw e => Throw e
      end
  end.

(** An emitted row of the arity of the batch. *)
Definition arity_ok (keys_per_row columns : Z) (out : OutputType) : Prop :=
  let '(_, _, imputed_keys, imputed_data) := out in
  Z.of_nat (List.length imputed_keys) = keys_per_row /\
  Z.of_nat (List.length imputed_data) = columns.

(** The four output arrays hold [rows], row by row: the shapes have
    [rows]' length as first dimension, and entry [i] of each array comes
    from row [i], keys and values through the codec. *)
Definition materialized (keys_per_row columns : Z) (rows : list OutputType)
    (w : World T) : Prop :=
  let n := Z.of_nat (List.length rows) in
  output_shapes w = Some ([n], [n; keys_per_row], [n; columns]) /\
  List.length (added_output w) = List.length rows /\
  List.length (time_output w) = List.length rows /\
  Z.of_nat (List.length (keys_output w)) = (n * keys_per_row)%Z /\
  Z.of_nat (List.length (data_output w)) = (n * columns)%Z /\
  forall i added tp imputed_keys imputed_data,
    nth_error rows i = Some (added, tp, imputed_keys, imputed_data) ->
    nth_error (added_output w) i = Some added /\
    nth_error (time_output w) i = Some (ToSecs ticks_per_second tp) /\
    map Ok (slice (keys_output w) (Z.of_nat i * keys_per_row) keys_per_row)
      = map FromString imputed_keys /\
    map Ok (slice (data_output w) (Z.of_nat i * columns) columns)
      = map FromStringOptional imputed_data.
End Vocabulary.

(** An engine that refuses every observation. *)
Definition refusing_engine : Engine unit := {|
  construct _ := Returns tt;
  execute tr _ := ([], Throws "refused");
  flush tr := ([], Returns tr)
|}.

(** The row [echo_engine] emits for an observation. *)
Definition echoed (o : InputRow) : OutputType :=
  let '(tp, keys, data) := o in (false, tp, keys, data).

(** Strings of decimal digits, and strings of white space. *)
Fixpoint digits_only (s : string) : bool :=
  match s with
  | EmptyString => true
  | String c s' =>
      match CLib.dec_digit c with
      | Some _ => digits_only s'
      | None => false
      end
  end.

Fixpoint all_space (s : string) : bool :=
  match s with
  | EmptyString => true
  | String c s' => CLib.isspace c && all_space s'
  end.

(** The strings of an emitted row that the output loop decodes, in the
    order in which it decodes them: the keys, then the values that are
    present. *)
Definition present (l : list (option string)) : list string :=
  flat_map (fun o => match o with Some s => [s] | None => [] end) l.

Definition row_strings (out : OutputType) : list string :=
  row_keys out ++ present (row_values out).

(** The first string of [l] of which [strtof] / [strtod] convert nothing. *)
Definition first_unconvertible (l : list string) : option string :=
  find (fun s => negb (CLib.numeric_start (CLib.c_str s))) l.

(** How decoding the strings [l] to the type named [target] ends: with the
    conversion error of the first string that cannot be converted, or
    well. *)
Definition conversion (target : string) (l : list string) : result unit :=
  match first_unconvertible l with
  | Some val => Throw (NotConvertible target val)
  | None => Ok tt
  end.

(** The number a run of digits denotes, on top of [acc]. *)
Definition digits_value (s : string) (acc : N) : N :=
  fst (fst (CLib.scan_digits 10 CLib.dec_digit s acc)).

(** A mantissa with nothing shifted out of it. *)
Definition exactly (m : Z) : shr_record :=
  {| shr_m := m; shr_r := false; shr_s := false |}.

(** Whether [v] is a whole number of millionths, so that six digits after
    the point write it exactly: a finite [m * 2^e] with [e < 0] is one when
    [2^-e] divides [m * 10^6]. *)
Definition whole_millionths (v : spec_float) : bool :=
  match v with
  | S754_finite _ m (Zneg k) => ((Npos m * 1000000) mod 2 ^ Npos k =? 0)%N
  | _ => true
  end.

(** Whether two values of a format are the same datum. *)
Definition same_float (a b : spec_float) : bool :=
  match a, b with
  | S754_zero s, S754_zero s' => Bool.eqb s s'
  | S754_infinity s, S754_infinity s' => Bool.eqb s s'
  | S754_nan, S754_nan => true
  | S754_finite s m e, S754_finite s' m' e' =>
      Bool.eqb s s' && Pos.eqb m m' && Z.eqb e e'
  | _, _ => false
  end.

(** Whether the six decimals of [std::to_string] determine [v] in the
    format: [v] is a zero or an infinity, or a number that is what [strtof]
    / [strtod] read from its own rendering with six digits after the
    point. *)
Definition six_decimals_determine (prec emax : Z) (v : spec_float) : bool :=
  match v with
  | S754_finite s m e =>
      same_float
        (CLib.round_decimal prec emax s (CLib.millionths m e) (-6)) v
  | S754_nan => false
  | _ => true
  end.

(** The double nearest to [0.1]. *)
Definition tenth : double :=
  Double (S754_finite false 7205759403792794 (-56)).

Definition double_tensor (shape : TensorShape) (l : list double) : Tensor :=
  {| Shape := shape; Buffer := double_data l |}.

(** One row of doubles: the key [12] and no value. *)
Definition numeric_ctx : Inputs := {|
  input_state := {| Shape := [0%Z]; Buffer := uint8_data [] |};
  input_times := {| Shape := [1%Z]; Buffer := int64_data [0%Z] |};
  input_keys := double_tensor [1%Z; 1%Z] [twelve];
  input_data := double_tensor [1%Z; 1%Z] [Double S754_nan]
|}.

(** A script whose second row has a value that is no number. *)
Definition corrupt_script : list (list OutputType) :=
  [ [(false, 0%Z, ["12.000000"], [None]);
     (true, 1000000000%Z, ["12.000000"], [Some "abc"]);
     (true, 2000000000%Z, ["12.000000"], [Some "1.5"])];
    [] ].

(** One row of strings with a timestamp whose count of nanoseconds does
    not fit 64 bits. *)
Definition late_ctx : Inputs := {|
  input_state := {| Shape := [0%Z]; Buffer := uint8_data [] |};
  input_times := {| Shape := [1%Z]; Buffer := int64_data [9223372037%Z] |};
  input_keys := string_tensor [1%Z; 1%Z] ["A"];
  input_data := string_tensor [1%Z; 1%Z] ["5.0"]
|}.

(** The invocation on [numeric_ctx], with the engine playing
    [corrupt_script]. *)
Definition corrupt_run : World double * result unit :=
  TimeSeriesImputerTransformerImpl (engine := scripted_engine corrupt_script)
    (T := double) 1000000000 numeric_ctx 1 (initial_world double).

Section EngineOutcome.
Context {Transformer : Type} {engine : Engine Transformer}.

(** How the engine's part of an invocation ends: the construction from
    [image], the [execute] calls on [obs] and the [flush] all return, or
    the first of them that throws ends it. *)
Definition engine_outcome (image : list Byte.byte) (obs : list InputRow)
    : engine_result unit :=
  match construct image with
  | Throws what => Throws what
  | Returns tr0 =>
      match snd (run_executes tr0 obs) with
      | Throws what => Throws what
      | Returns tr1 =>
          match snd (flush tr1) with
          | Throws what => Throws what
          | Returns _ => Returns tt
          end
      end
  end.
End EngineOutcome.

(** * Facts *)

(** ** When [strtod] converts nothing *)

Module CLibFacts.
Import CLib.

(** [strtod] and [%f] on a few strings and values. *)
Example strtod_tenth :
  strto 53 1024 "0.1" = (S754_finite false 7205759403792794 (-56), 3).
Proof. vm_compute. reflexivity. Qed.

Example strtof_tenth :
  strto 24 128 "0.1" = (S754_finite false 13421773 (-27), 3).
Proof. vm_compute. reflexivity. Qed.

Example strtod_hex_with_rest :
  strto 53 1024 "  -0x1.8p1zz"
  = (S754_finite true 6755399441055744 (-51), 10).
Proof. vm_compute. reflexivity. Qed.

Example strtod_overflow : strto 53 1024 "1e400" = (S754_infinity false, 5).
Proof. vm_compute. reflexivity. Qed.

Example strtod_smallest :
  strto 53 1024 "4.9e-324" = (S754_finite false 1 (-1074), 8).
Proof. vm_compute. reflexivity. Qed.

Example strtod_nan_payload : strto 53 1024 "nan(abc)x" = (S754_nan, 8).
Proof. vm_compute. reflexivity. Qed.

Example strtod_lone_point : strto 53 1024 ".e5" = (S754_zero false, 0).
Proof. vm_compute. reflexivity. Qed.

Example strtod_lone_hex_prefix : strto 53 1024 "0x" = (S754_zero false, 1).
Proof. vm_compute. reflexivity. Qed.

Example strtod_bad_exponent :
  strto 53 1024 "12e+" = (S754_finite false 6755399441055744 (-49), 2).
Proof. vm_compute. reflexivity. Qed.

Example format_tenth :
  format_f false (S754_finite false 7205759403792794 (-56)) = "0.100000".
Proof. vm_compute. reflexivity. Qed.

Example format_negative :
  format_f false (S754_finite true 5 (-1)) = "-2.500000".
Proof. vm_compute. reflexivity. Qed.

Example format_nan :
  format_f false S754_nan = "nan" /\ format_f true S754_nan = "-nan".
Proof. vm_compute. auto. Qed.

Example strtod_minus_nan :
  strto 53 1024 "-nan" = (S754_nan, 4) /\ strto_nan_sign "-nan" = true /\
  strto_nan_sign "nan" = false.
Proof. vm_compute. auto. Qed.

Example format_ties_to_even :
  format_f false (S754_finite false 1 (-7)) = "0.007812" /\
  format_f false (S754_finite false 3 (-7)) = "0.023438".
Proof. vm_compute. auto. Qed.

Example format_large :
  format_f false (S754_finite false 4503599627370496 18)
  = "1180591620717411303424.000000".
Proof. vm_compute. reflexivity. Qed.

Lemma scan_digits_head_none base digit c s acc :
  digit c = None ->
  scan_digits base digit (String c s) acc = (acc, 0, String c s).
Proof. intros Hc. simpl. now rewrite Hc. Qed.

Lemma scan_digits_head_some base digit c s acc d :
  digit c = Some d ->
  exists v n r, scan_digits base digit (String c s) acc = (v, S n, r).
Proof.
  intros Hc. simpl. rewrite Hc.
  destruct (scan_digits base digit s (acc * base + d)%N) as [[v n] r].
  now exists v, n, r.
Qed.

Lemma scan_mantissa_none_iff base digit s :
  scan_mantissa base digit s = None <-> starts_mantissa digit s = false.
Proof.
  unfold scan_mantissa, starts_mantissa.
  destruct s as [|c s'].
  - simpl. tauto.
  - destruct (digit c) as [d|] eqn:Hc.
    + destruct (scan_digits_head_some base digit c s' 0%N d Hc)
        as (v & n & r & E).
      rewrite E. split; [|discriminate].
      destruct r as [|c' r']; simpl; [discriminate|].
      destruct (Ascii.eqb c' "."); [|discriminate].
      destruct (scan_digits base digit r' v) as [[m2 n2] r2]. simpl.
      discriminate.
    + rewrite (scan_digits_head_none base digit c s' 0%N Hc).
      destruct (Ascii.eqb c "."); simpl; [|tauto].
      destruct s' as [|d s''].
      * simpl. tauto.
      * destruct (digit d) as [dv|] eqn:Hd.
        -- destruct (scan_digits_head_some base digit d s'' 0%N dv Hd)
             as (v & n & r & E).
           rewrite E. simpl. split; discriminate.
        -- rewrite (scan_digits_head_none base digit d s'' 0%N Hd). simpl.
           tauto.
Qed.

Lemma scan_mantissa_consumes base digit s m nfrac n r :
  scan_mantissa base digit s = Some (m, nfrac, n, r) -> 0 < n.
Proof.
  unfold scan_mantissa.
  destruct (scan_digits base digit s 0%N) as [[m1 n1] r1].
  destruct r1 as [|c r1'].
  - destruct (Nat.eqb n1 0) eqn:E; [discriminate|].
    intros [= _ _ <- _]. apply Nat.eqb_neq in E. lia.
  - destruct (Ascii.eqb c ".").
    + destruct (scan_digits base digit r1' m1) as [[m2 n2] r2].
      destruct (Nat.eqb (n1 + n2) 0); [discriminate|].
      intros [= _ _ <- _]. lia.
    + destruct (Nat.eqb n1 0) eqn:E; [discriminate|].
      intros [= _ _ <- _]. apply Nat.eqb_neq in E. lia.
Qed.

Lemma scan_hex_some prec emax neg s v n :
  scan_hex prec emax neg s = Some (v, n) ->
  0 < n /\ starts_mantissa dec_digit s = true.
Proof.
  unfold scan_hex.
  destruct s as [|c0 [|x s']]; try discriminate.
  destruct (Ascii.eqb c0 "0") eqn:E0; simpl; [|discriminate].
  destruct (Ascii.eqb (tolower x) "x"); [|discriminate].
  destruct (scan_mantissa 16 hex_digit s') as [[[[m nfrac] k] r]|];
    [|discriminate].
  destruct (scan_exponent "p" "P" r) as [e ne].
  intros [= _ <-]. apply Ascii.eqb_eq in E0. subst c0.
  split; [lia | reflexivity].
Qed.

(** [strtod] leaves [str_end = str] exactly when the string does not begin
    like a number. *)
Lemma strto_converts_nothing_iff prec emax str :
  snd (strto prec emax str) = 0 <-> numeric_start str = false.
Proof.
  unfold strto, numeric_start.
  destruct (skip_spaces str) as [nws s1].
  destruct (scan_sign s1) as [[neg ns] s2].
  unfold scan_special.
  destruct (strip_prefix_ci "inf" s2) as [r|].
  - destruct (strip_prefix_ci "inity" r); simpl; split; (lia || discriminate).
  - destruct (strip_prefix_ci "nan" s2) as [r|].
    + simpl. split; (lia || discriminate).
    + destruct (scan_hex prec emax neg s2) as [[v n]|] eqn:Hhex.
      * apply scan_hex_some in Hhex. destruct Hhex as [Hn Hs].
        rewrite Hs. simpl. split; (lia || discriminate).
      * unfold scan_decimal.
        destruct (scan_mantissa 10 dec_digit s2) as [[[[m nfrac] n] r]|] eqn:Hm.
        -- pose proof (scan_mantissa_consumes _ _ _ _ _ _ _ Hm) as Hn.
           destruct (scan_exponent "e" "E" r) as [e ne]. simpl.
           destruct (starts_mantissa dec_digit s2) eqn:Hs.
           ++ split; (lia || discriminate).
           ++ apply (proj2 (scan_mantissa_none_iff 10 _ _)) in Hs. congruence.
        -- apply (proj1 (scan_mantissa_none_iff 10 _ _)) in Hm. rewrite Hm.
           simpl. tauto.
Qed.

End CLibFacts.

(** ** The value codec *)

Module CodecFacts.
Import CLib CLibFacts.

Lemma decimal_head n :
  exists c rest, decimal n = String c rest /\
    In c ["0"; "1"; "2"; "3"; "4"; "5"; "6"; "7"; "8"; "9"]%char.
Proof.
  unfold decimal.
  destruct (N.to_uint n) as [|d|d|d|d|d|d|d|d|d|d]; simpl;
    eexists; eexists; (split; [reflexivity | simpl; tauto]).
Qed.

(** What [std::to_string] prints always begins like a number. *)
Lemma format_f_numeric_start sg v :
  numeric_start (c_str (format_f sg v)) = true.
Proof.
  destruct v as [s|s| |s m e].
  - destruct s; reflexivity.
  - destruct s; reflexivity.
  - destruct sg; reflexivity.
  - unfold format_f.
    destruct (decimal_head (millionths m e / 1000000)) as (c & rest & -> & Hc).
    simpl in Hc.
    destruct s; simpl sign_prefix; simpl append;
      repeat (destruct Hc as [<-|Hc]; [reflexivity|]); contradiction.
Qed.

Lemma FromString_double_throws_iff val :
  FromString_double val = Throw (NotConvertible "double" val) <->
  numeric_start (c_str val) = false.
Proof.
  unfold FromString_double, strtod.
  rewrite <- (strto_converts_nothing_iff 53 1024).
  destruct (strto 53 1024 (c_str val)) as [v n]. simpl.
  destruct n; simpl; split; (reflexivity || discriminate).
Qed.

Lemma FromString_float_throws_iff val :
  FromString_float val = Throw (NotConvertible "float" val) <->
  numeric_start (c_str val) = false.
Proof.
  unfold FromString_float, strtof.
  rewrite <- (strto_converts_nothing_iff 24 128).
  destruct (strto 24 128 (c_str val)) as [v n]. simpl.
  destruct n; simpl; split; (reflexivity || discriminate).
Qed.

Lemma FromString_double_returns val :
  numeric_start (c_str val) = true ->
  FromString_double val = Ok (fst (strtod (c_str val))).
Proof.
  intros H. unfold FromString_double.
  destruct (strtod (c_str val)) as [v n] eqn:E. cbn [fst].
  destruct n; [|reflexivity].
  assert (snd (strto 53 1024 (c_str val)) = 0) as H0.
  { unfold strtod in E. destruct (strto 53 1024 (c_str val)). now inversion E. }
  apply strto_converts_nothing_iff in H0. congruence.
Qed.

Lemma FromString_float_returns val :
  numeric_start (c_str val) = true ->
  FromString_float val = Ok (fst (strtof (c_str val))).
Proof.
  intros H. unfold FromString_float.
  destruct (strtof (c_str val)) as [v n] eqn:E. cbn [fst].
  destruct n; [|reflexivity].
  assert (snd (strto 24 128 (c_str val)) = 0) as H0.
  { unfold strtof in E. destruct (strto 24 128 (c_str val)). now inversion E. }
  apply strto_converts_nothing_iff in H0. congruence.
Qed.

(** [FromString<double>] and [FromString<float>] by the beginning of the
    string. *)
Lemma FromString_double_by_start (val : string) :
  FromString_double val
  = if numeric_start (c_str val) then Ok (fst (strtod (c_str val)))
    else Throw (NotConvertible "double" val).
Proof.
  destruct (numeric_start (c_str val)) eqn:E.
  - now apply FromString_double_returns.
  - now apply FromString_double_throws_iff.
Qed.

Lemma FromString_float_by_start (val : string) :
  FromString_float val
  = if numeric_start (c_str val) then Ok (fst (strtof (c_str val)))
    else Throw (NotConvertible "float" val).
Proof.
  destruct (numeric_start (c_str val)) eqn:E.
  - now apply FromString_float_returns.
  - now apply FromString_float_throws_iff.
Qed.

(** The sign bit matters for a NaN only. *)
Lemma double_of_not_nan sg x : is_nan x = false -> double_of sg x = Double x.
Proof. intros H. unfold double_of. now rewrite H. Qed.

Lemma float_of_not_nan sg x : is_nan x = false -> float_of sg x = Float x.
Proof. intros H. unfold float_of. now rewrite H. Qed.

End CodecFacts.

(** ** What the numeric codec writes, it reads to the end *)

Module EncodingFacts.
Import CLib CLibFacts CodecFacts.

Lemma string_length_append (a b : string) :
  String.length (a ++ b)%string = String.length a + String.length b.
Proof. induction a as [|c a IH]; simpl; [reflexivity | now rewrite IH]. Qed.

(** What a decimal digit is not. *)
Lemma digit_is_plain (c : ascii) (d : N) :
  dec_digit c = Some d ->
  isspace c = false /\ Ascii.eqb c zero = false /\
  Ascii.eqb c "-" = false /\ Ascii.eqb c "+" = false /\
  Ascii.eqb c "." = false /\
  Ascii.eqb (tolower c) "i" = false /\ Ascii.eqb (tolower c) "n" = false /\
  Ascii.eqb (tolower c) "x" = false.
Proof.
  destruct c as [[|] [|] [|] [|] [|] [|] [|] [|]]; vm_compute;
    intros H; try discriminate H; repeat split.
Qed.

Lemma scan_digits_value (s : string) : forall (r : string) (acc : N),
  digits_only s = true ->
  match r with
  | String c _ => dec_digit c = None
  | EmptyString => True
  end ->
  scan_digits 10 dec_digit (s ++ r)%string acc
  = (digits_value s acc, String.length s, r).
Proof.
  unfold digits_value.
  induction s as [|c s IH]; intros r acc Hs Hr.
  - cbn [append String.length scan_digits fst].
    destruct r as [|c r]; [reflexivity|]. cbn [scan_digits]. now rewrite Hr.
  - cbn [digits_only] in Hs. cbn [append String.length scan_digits].
    destruct (dec_digit c) as [d|]; [|discriminate].
    rewrite (IH r (acc * 10 + d)%N Hs Hr).
    destruct (scan_digits 10 dec_digit s (acc * 10 + d)%N) as [[v n] r'].
    reflexivity.
Qed.

Lemma c_str_digits (a b : string) :
  digits_only a = true -> c_str (a ++ b)%string = (a ++ c_str b)%string.
Proof.
  induction a as [|c a IH]; intros H; [reflexivity|].
  cbn [digits_only] in H. cbn [append c_str].
  destruct (dec_digit c) as [d|] eqn:Hc; [|discriminate].
  destruct (digit_is_plain c d Hc) as (_ & -> & _). now rewrite IH.
Qed.

Lemma c_str_digits_only (a : string) : digits_only a = true -> c_str a = a.
Proof.
  induction a as [|c a IH]; intros H; [reflexivity|].
  cbn [digits_only] in H. cbn [append c_str].
  destruct (dec_digit c) as [d|] eqn:Hc; [|discriminate].
  destruct (digit_is_plain c d Hc) as (_ & -> & _). now rewrite IH.
Qed.

Lemma uint_digits_only (d : Decimal.uint) :
  digits_only (NilEmpty.string_of_uint d) = true.
Proof. induction d; simpl; assumption || reflexivity. Qed.

Lemma decimal_digits_only (n : N) : digits_only (decimal n) = true.
Proof.
  unfold decimal, NilZero.string_of_uint.
  destruct (N.to_uint n) eqn:E; try reflexivity;
    rewrite <- E; apply uint_digits_only.
Qed.

Lemma digit_char_is_digit (n : N) :
  exists d, dec_digit (digit_char n) = Some d.
Proof.
  unfold digit_char.
  pose proof (N.mod_upper_bound n 10 ltac:(discriminate)) as H.
  set (m := (n mod 10)%N) in *.
  assert (m = 0 \/ m = 1 \/ m = 2 \/ m = 3 \/ m = 4 \/ m = 5 \/ m = 6 \/
          m = 7 \/ m = 8 \/ m = 9)%N as Hm by lia.
  repeat (destruct Hm as [->|Hm]; [now eexists|]). subst m. rewrite Hm.
  now eexists.
Qed.

Lemma six_digits_only (n : N) :
  digits_only (six_digits n) = true /\ String.length (six_digits n) = 6.
Proof.
  split; [|reflexivity]. unfold six_digits. cbn [digits_only].
  repeat match goal with
         | |- context [dec_digit (digit_char ?k)] =>
             let d := fresh "d" in
             let E := fresh "E" in
             destruct (digit_char_is_digit k) as [d E]; rewrite E; clear E d
         end.
  reflexivity.
Qed.

Lemma uint_value_acc (d : Decimal.uint) : forall acc : positive,
  digits_value (NilEmpty.string_of_uint d) (Npos acc)
  = Npos (Pos.of_uint_acc d acc).
Proof.
  unfold digits_value.
  induction d as [|d IH|d IH|d IH|d IH|d IH|d IH|d IH|d IH|d IH|d IH];
    intros acc; [reflexivity|..];
    cbn [NilEmpty.string_of_uint scan_digits Pos.of_uint_acc];
    match goal with
    | |- context [dec_digit ?c] =>
        let v := eval vm_compute in (dec_digit c) in
        change (dec_digit c) with v; cbv iota beta
    end;
    match goal with
    | |- context [scan_digits 10 dec_digit _ ?a] =>
        match goal with
        | |- context [Pos.of_uint_acc d ?b] =>
            replace a with (Npos b) by lia; specialize (IH b)
        end
    end;
    match goal with
    | |- context [scan_digits ?x ?y ?z ?t] =>
        destruct (scan_digits x y z t) as [[v n] r]
    end; exact IH.
Qed.

Lemma uint_value (d : Decimal.uint) :
  digits_value (NilEmpty.string_of_uint d) 0 = N.of_uint d.
Proof.
  unfold N.of_uint.
  induction d as [|d IH|d IH|d IH|d IH|d IH|d IH|d IH|d IH|d IH|d IH];
    [reflexivity|..]; cbn [Pos.of_uint]; try (rewrite <- uint_value_acc);
    unfold digits_value in *; cbn [NilEmpty.string_of_uint scan_digits];
    match goal with
    | |- context [dec_digit ?c] =>
        let v := eval vm_compute in (dec_digit c) in
        change (dec_digit c) with v; cbv iota beta
    end; cbn [N.mul N.add];
    match goal with
    | |- context [scan_digits ?x ?y ?z ?t] =>
        destruct (scan_digits x y z t) as [[v n] r]
    end; try exact IH; reflexivity.
Qed.

Lemma decimal_value (n : N) : digits_value (decimal n) 0 = n.
Proof.
  unfold decimal, NilZero.string_of_uint.
  rewrite <- (DecimalN.Unsigned.of_to n) at 2.
  destruct (N.to_uint n) eqn:E; try apply uint_value.
  (* Nil does not occur *)
  exfalso. destruct n as [|p]; [discriminate|].
  pose proof (DecimalN.Unsigned.of_to (Npos p)) as H.
  rewrite E in H. discriminate.
Qed.

Lemma dec_digit_digit_char (n : N) :
  dec_digit (digit_char n) = Some (n mod 10)%N.
Proof.
  unfold digit_char.
  pose proof (N.mod_upper_bound n 10 ltac:(discriminate)) as H.
  set (m := (n mod 10)%N) in *.
  assert (m = 0 \/ m = 1 \/ m = 2 \/ m = 3 \/ m = 4 \/ m = 5 \/ m = 6 \/
          m = 7 \/ m = 8 \/ m = 9)%N as Hm by lia.
  repeat (destruct Hm as [->|Hm]; [reflexivity|]). now rewrite Hm.
Qed.

Lemma six_digits_value (q r : N) :
  (r < 1000000)%N -> digits_value (six_digits r) q = (q * 1000000 + r)%N.
Proof.
  intros Hr. unfold digits_value, six_digits. cbn [scan_digits].
  rewrite !dec_digit_digit_char. cbn [fst].
  pose proof (N.div_mod r 10 ltac:(discriminate)) as E0.
  pose proof (N.div_mod (r / 10) 10 ltac:(discriminate)) as E1.
  pose proof (N.div_mod (r / 100) 10 ltac:(discriminate)) as E2.
  pose proof (N.div_mod (r / 1000) 10 ltac:(discriminate)) as E3.
  pose proof (N.div_mod (r / 10000) 10 ltac:(discriminate)) as E4.
  pose proof (N.div_mod (r / 100000) 10 ltac:(discriminate)) as E5.
  rewrite !N.Div0.div_div in *.
  change (10 * 10)%N with 100%N in *.
  change (100 * 10)%N with 1000%N in *.
  change (1000 * 10)%N with 10000%N in *.
  change (10000 * 10)%N with 100000%N in *.
  change (100000 * 10)%N with 1000000%N in *.
  rewrite (N.div_small r 1000000 Hr) in E5.
  lia.
Qed.

(** A string of digits, a point and more digits is converted to its end,
    to the number it denotes. *)
Lemma strto_digits_point_digits_value prec emax (sg : bool) (D F : string) :
  digits_only D = true -> D <> EmptyString -> digits_only F = true ->
  strto prec emax (sign_prefix sg ++ D ++ String "." F)%string
  = (round_decimal prec emax sg (digits_value F (digits_value D 0))
       (0 - Z.of_nat (String.length F)),
     String.length (sign_prefix sg ++ D ++ String "." F)%string).
Proof.
  intros HD Hne HF.
  destruct D as [|c D']; [contradiction|].
  pose proof HD as HD0. simpl in HD0.
  destruct (dec_digit c) as [d|] eqn:Hc; [|discriminate].
  destruct (digit_is_plain c d Hc)
    as (Hsp & _ & Hminus & Hplus & Hpt & Hi & Hn & Hx).
  set (s2 := (String c D' ++ String "." F)%string).
  assert (scan_special sg s2 = None) as Hspecial.
  { unfold scan_special, s2. simpl. now rewrite Hi, Hn. }
  assert (scan_hex prec emax sg s2 = None) as Hhex.
  { unfold scan_hex, s2. simpl.
    destruct D' as [|c' D'']; simpl.
    - now rewrite andb_false_r.
    - simpl in HD0. destruct (dec_digit c') as [d'|] eqn:Hc'; [|discriminate].
      destruct (digit_is_plain c' d' Hc') as (_ & _ & _ & _ & _ & _ & _ & ->).
      now rewrite andb_false_r. }
  assert (scan_decimal prec emax sg s2
          = Some (round_decimal prec emax sg
                    (digits_value F (digits_value (String c D') 0))
                    (0 - Z.of_nat (String.length F)),
                  String.length (String c D') + 1 + String.length F))
    as Hdec.
  { unfold scan_decimal, scan_mantissa, s2.
    rewrite (scan_digits_value (String c D') (String "." F) 0%N HD eq_refl).
    cbn [Ascii.eqb Bool.eqb].
    pose proof (scan_digits_value F EmptyString
                  (digits_value (String c D') 0) HF I) as E2.
    replace (F ++ "")%string with F in E2
      by (clear; induction F as [|x F IH]; simpl; [|rewrite <- IH];
          reflexivity).
    rewrite E2. cbn [String.length Nat.add Nat.eqb]. cbv iota.
    cbn [scan_exponent]. now rewrite Nat.add_0_r. }
  assert (strto prec emax (sign_prefix sg ++ s2)%string
          = (round_decimal prec emax sg
               (digits_value F (digits_value (String c D') 0))
               (0 - Z.of_nat (String.length F)),
             (if sg then 1 else 0)
             + (String.length (String c D') + 1 + String.length F)))
    as E.
  { unfold strto. destruct sg; simpl sign_prefix.
    - change ("-" ++ s2)%string with (String "-" s2).
      cbn [skip_spaces]. change (isspace "-") with false. cbv iota.
      cbn [scan_sign]. change (Ascii.eqb "-" "-") with true. cbv iota.
      now rewrite Hspecial, Hhex, Hdec.
    - change ("" ++ s2)%string with s2. unfold s2 at 1.
      cbn [append skip_spaces]. rewrite Hsp.
      cbn [scan_sign]. rewrite Hminus, Hplus. fold s2.
      change (String c (D' ++ String "." F))%string with s2.
      now rewrite Hspecial, Hhex, Hdec. }
  fold s2. rewrite E. f_equal.
  rewrite string_length_append. unfold s2. rewrite string_length_append.
  destruct sg; simpl; lia.
Qed.

Lemma strto_digits_point_digits prec emax (sg : bool) (D F : string) :
  digits_only D = true -> D <> EmptyString -> digits_only F = true ->
  snd (strto prec emax (sign_prefix sg ++ D ++ String "." F)%string)
  = String.length (sign_prefix sg ++ D ++ String "." F)%string.
Proof.
  intros HD Hne HF.
  now rewrite (strto_digits_point_digits_value prec emax sg D F HD Hne HF).
Qed.

Lemma format_f_whole prec emax (sg : bool) (v : spec_float) :
  c_str (format_f sg v) = format_f sg v /\
  whole_number prec emax (format_f sg v) = true.
Proof.
  destruct v as [s|s| |s m e].
  - destruct s; vm_compute; split; reflexivity.
  - destruct s; vm_compute; split; reflexivity.
  - destruct sg; vm_compute; split; reflexivity.
  - unfold format_f.
    set (D := decimal (millionths m e / 1000000)).
    set (F := six_digits (millionths m e mod 1000000)).
    pose proof (decimal_digits_only (millionths m e / 1000000)) as HD.
    destruct (six_digits_only (millionths m e mod 1000000)) as [HF HlenF].
    fold D in HD. fold F in HF, HlenF.
    assert (D <> EmptyString) as Hne.
    { destruct (decimal_head (millionths m e / 1000000)) as (c & r & E & _).
      fold D in E. rewrite E. discriminate. }
    change ("." ++ F)%string with (String "." F).
    split.
    + destruct s; cbn [sign_prefix append c_str];
        [change (Ascii.eqb "-" zero) with false; cbv iota; f_equal|];
        rewrite c_str_digits by assumption; f_equal;
        cbn [c_str]; change (Ascii.eqb "." zero) with false; cbv iota;
        f_equal; now apply c_str_digits_only.
    + unfold whole_number.
      rewrite (strto_digits_point_digits prec emax s D F HD Hne HF).
      rewrite Nat.eqb_refl, andb_true_r.
      apply negb_true_iff, Nat.eqb_neq.
      rewrite !string_length_append. cbn [String.length]. lia.
Qed.

(** What [strtod] makes of a printed finite value: the number its six
    decimals denote, rounded to the format. *)
Lemma strto_format_f prec emax (sg s : bool) (m : positive) (e : Z) :
  strto prec emax (format_f sg (S754_finite s m e))
  = (round_decimal prec emax s (millionths m e) (-6),
     String.length (format_f sg (S754_finite s m e))).
Proof.
  unfold format_f.
  set (q := millionths m e).
  pose proof (decimal_digits_only (q / 1000000)) as HD.
  destruct (six_digits_only (q mod 1000000)) as [HF HlenF].
  assert (decimal (q / 1000000) <> EmptyString) as Hne.
  { destruct (decimal_head (q / 1000000)) as (c & r & E & _).
    rewrite E. discriminate. }
  change ("." ++ six_digits (q mod 1000000))%string
    with (String "." (six_digits (q mod 1000000))).
  rewrite (strto_digits_point_digits_value prec emax s _ _ HD Hne HF).
  rewrite decimal_value, six_digits_value, HlenF
    by (apply N.mod_upper_bound; discriminate).
  f_equal. f_equal.
  rewrite N.mul_comm. symmetry. apply N.div_mod. discriminate.
Qed.

(** X2: the string the codec writes for a [float] or a [double], key or
    value, holds no NUL and is a number from its first to its last
    character: [strtof] / [strtod] convert it and stop at its end. *)
Theorem encoded_numbers_are_whole_numbers :
  (forall v : float,
     c_str (ToString v) = ToString v /\
     whole_number 24 128 (ToString v) = true) /\
  (forall v : double,
     c_str (ToString v) = ToString v /\
     whole_number 53 1024 (ToString v) = true) /\
  (forall (v : float) (s : string),
     ToStringOptional v = Some s ->
     c_str s = s /\ whole_number 24 128 s = true) /\
  (forall (v : double) (s : string),
     ToStringOptional v = Some s ->
     c_str s = s /\ whole_number 53 1024 s = true).
Proof.
  repeat apply conj.
  - intros v. apply format_f_whole.
  - intros v. apply format_f_whole.
  - intros v s. cbn. unfold ToStringOptional_primary.
    destruct (isnan v); [discriminate|]. intros [= <-]. apply format_f_whole.
  - intros v s. cbn. unfold ToStringOptional_primary.
    destruct (isnan v); [discriminate|]. intros [= <-]. apply format_f_whole.
Qed.
End EncodingFacts.

(** ** Decimals that are numbers of the format *)

Module RoundingFacts.
Import CLib.
#[local] Open Scope Z_scope.

Lemma iter_pos_iter {A : Type} (f : A -> A) (p : positive) : forall x : A,
  iter_pos f p x = Pos.iter f x p.
Proof.
  induction p as [p IH|p IH|]; intros x; cbn [iter_pos Pos.iter].
  - rewrite !IH. now rewrite !Pos.iter_swap.
  - now rewrite !IH.
  - reflexivity.
Qed.

(** Shifting out zeros is exact. *)
Lemma shr_zeros (m p : positive) :
  iter_pos shr_1 p (exactly (Zpos (Pos.iter xO m p))) = exactly (Zpos m).
Proof.
  rewrite iter_pos_iter. revert m.
  induction p as [|p IH] using Pos.peano_ind; intros m.
  - reflexivity.
  - rewrite (Pos.iter_succ p _ xO m).
    rewrite Pos.iter_succ, <- Pos.iter_swap.
    cbn [shr_1 exactly orb]. apply IH.
Qed.

Lemma shifted_value (m p : positive) :
  Zpos (Pos.iter xO m p) = Zpos m * 2 ^ Zpos p.
Proof.
  induction p as [|p IH] using Pos.peano_ind.
  - cbn [Pos.iter]. lia.
  - rewrite Pos.iter_succ, Pos2Z.inj_succ, Z.pow_succ_r by lia.
    rewrite Pos2Z.inj_xO, IH. lia.
Qed.

Lemma shifted_digits (m p : positive) :
  Zpos (digits2_pos (Pos.iter xO m p)) = Zpos (digits2_pos m) + Zpos p.
Proof.
  induction p as [|p IH] using Pos.peano_ind.
  - cbn [Pos.iter digits2_pos]. lia.
  - rewrite Pos.iter_succ. cbn [digits2_pos]. rewrite Pos2Z.inj_succ, IH. lia.
Qed.

Lemma digits2_size (p : positive) : digits2_pos p = Pos.size p.
Proof. induction p; cbn; congruence. Qed.

Lemma digits2_upper (p : positive) : Zpos p < 2 ^ Zpos (digits2_pos p).
Proof.
  rewrite digits2_size. pose proof (Pos.size_gt p) as H.
  apply Pos2Z.pos_lt_pos in H. now rewrite Pos2Z.inj_pow in H.
Qed.

Lemma digits2_le (p : positive) (n : Z) :
  Zpos p < 2 ^ n -> Zpos (digits2_pos p) <= n.
Proof.
  intros H. rewrite digits2_size.
  pose proof (Pos.size_le p) as L.
  apply Pos2Z.pos_le_pos in L. rewrite Pos2Z.inj_pow in L.
  destruct (Z.lt_ge_cases n 0) as [Hn|Hn].
  - rewrite Z.pow_neg_r in H by assumption. lia.
  - destruct (Z.le_gt_cases (Zpos (Pos.size p)) n) as [?|Hgt]; [assumption|].
    assert (2 ^ (n + 1) <= 2 ^ Zpos (Pos.size p))
      by (apply Z.pow_le_mono_r; lia).
    rewrite Z.pow_add_r, Z.pow_1_r in * by lia. lia.
Qed.

Section Exact.
Variables prec emax : Z.

Lemma fexp_monotone (a b : Z) : a <= b -> fexp prec emax a <= fexp prec emax b.
Proof. unfold fexp. lia. Qed.

(** Rounding a mantissa that is a canonical one followed by zeros gives
    the canonical one. *)
Lemma binary_round_aux_exact (s : bool) (m : positive) (e k : Z) :
  bounded prec emax m e = true -> 0 <= k ->
  binary_round_aux prec emax s (Zpos m * 2 ^ k) (e - k) loc_Exact
  = S754_finite s m e.
Proof.
  intros Hb Hk. unfold bounded, canonical_mantissa in Hb.
  apply andb_true_iff in Hb. destruct Hb as [Hc He].
  apply Z.eqb_eq in Hc.
  assert (shr_fexp prec emax (Zpos m) e loc_Exact = (exactly (Zpos m), e))
    as Hstay.
  { unfold shr_fexp. cbn [Zdigits2 shr_record_of_loc]. rewrite Hc.
    rewrite Z.sub_diag. reflexivity. }
  assert (shr_fexp prec emax (Zpos m * 2 ^ k) (e - k) loc_Exact
          = (exactly (Zpos m), e)) as Hshift.
  { destruct k as [|p|p]; [| |lia].
    - rewrite Z.pow_0_r, Z.mul_1_r, Z.sub_0_r. exact Hstay.
    - rewrite <- shifted_value. unfold shr_fexp.
      cbn [Zdigits2 shr_record_of_loc]. rewrite shifted_digits.
      replace (Zpos (digits2_pos m) + Zpos p + (e - Zpos p))
        with (Zpos (digits2_pos m) + e) by lia.
      rewrite Hc. replace (e - (e - Zpos p)) with (Zpos p) by lia.
      cbn [shr]. fold (exactly (Zpos (Pos.iter xO m p))).
      rewrite shr_zeros. f_equal. lia. }
  unfold binary_round_aux. rewrite Hshift.
  cbn [exactly shr_m loc_of_shr_record round_nearest_even].
  rewrite Hstay. cbn [exactly shr_m]. now rewrite He.
Qed.

Lemma div_eucl_exact (q b : Z) : 0 < b -> Z.div_eucl (q * b) b = (q, 0).
Proof.
  intros Hb.
  pose proof (Z.div_mul q b ltac:(lia)) as Hq.
  pose proof (Z.mod_mul q b ltac:(lia)) as Hr.
  unfold Z.div, Z.modulo in Hq, Hr.
  destruct (Z.div_eucl (q * b) b) as [q' r']. congruence.
Qed.

(** A decimal with six digits after the point that is a number of the
    format is read as that number. *)
Lemma round_decimal_exact (s : bool) (M m : positive) (e : Z) :
  bounded prec emax m e = true ->
  Zpos M * 2 ^ Z.max 0 (- e) = Zpos m * 2 ^ Z.max 0 e * 1000000 ->
  round_decimal prec emax s (Npos M) (-6) = S754_finite s m e.
Proof.
  intros Hb HM. pose proof Hb as Hb0. unfold bounded, canonical_mantissa in Hb0.
  apply andb_true_iff in Hb0. destruct Hb0 as [Hc _].
  apply Z.eqb_eq in Hc.
  set (dm := Zpos (digits2_pos m)) in *.
  pose proof (digits2_upper m) as Hm. fold dm in Hm.
  assert (Zpos (digits2_pos M) <= dm + e + 20) as Hd.
  { apply digits2_le.
    destruct (Z.le_gt_cases 0 e) as [He|He].
    - rewrite (Z.max_l 0 (- e)), (Z.max_r 0 e), Z.pow_0_r in HM by lia.
      assert (0 < 2 ^ e) as Hpe by (apply Z.pow_pos_nonneg; lia).
      rewrite !Z.pow_add_r by lia. change (2 ^ 20) with 1048576. nia.
    - rewrite (Z.max_r 0 (- e)), (Z.max_l 0 e), Z.pow_0_r in HM by lia.
      assert (0 < 2 ^ (- e)) as Hpe by (apply Z.pow_pos_nonneg; lia).
      assert (Zpos M * 2 ^ (- e) < 2 ^ (dm + 20)) as Hlt.
      { rewrite Z.pow_add_r by lia. change (2 ^ 20) with 1048576. nia. }
      assert (- e < dm + 20) as Hexp.
      { apply (Z.pow_lt_mono_r_iff 2); [lia | lia |]. nia. }
      replace (dm + 20) with ((dm + e + 20) + (- e)) in Hlt by lia.
      rewrite Z.pow_add_r in Hlt by lia. nia. }
  unfold round_decimal. change (0 <=? -6) with false. cbv iota.
  change (10 ^ (- -6)) with 1000000.
  unfold SFdiv_core_binary. cbn [Zdigits2].
  change (Zpos (digits2_pos 1000000)) with 20.
  set (e' := Z.min (fexp prec emax (Zpos (digits2_pos M) + 0 - (20 + 0)))
                   (0 - 0)).
  assert (e' <= e) as He'.
  { subst e'. rewrite <- Hc.
    pose proof (fexp_monotone (Zpos (digits2_pos M) + 0 - (20 + 0)) (dm + e)
                  ltac:(lia)). lia. }
  assert (e' <= 0) as He0 by (subst e'; lia).
  assert (match 0 - 0 - e' with
          | Zpos _ => Z.shiftl (Zpos M) (0 - 0 - e')
          | Z0 => Zpos M
          | Zneg _ => 0
          end = (Zpos m * 2 ^ (e - e')) * 1000000) as ->.
  { assert (Zpos M * 2 ^ (- e') = Zpos m * 2 ^ (e - e') * 1000000) as E.
    { destruct (Z.le_gt_cases 0 e) as [He|He].
      - rewrite (Z.max_l 0 (- e)), (Z.max_r 0 e), Z.pow_0_r in HM by lia.
        replace (e - e') with (e + - e') by lia.
        rewrite Z.pow_add_r by lia. nia.
      - rewrite (Z.max_r 0 (- e)), (Z.max_l 0 e), Z.pow_0_r in HM by lia.
        replace (- e') with (- e + (e - e')) by lia.
        rewrite Z.pow_add_r by lia. nia. }
    rewrite <- E.
    destruct (0 - 0 - e') as [|p|p] eqn:Es; [| |lia].
    - replace (- e') with 0 by lia. now rewrite Z.pow_0_r, Z.mul_1_r.
    - rewrite Z.shiftl_mul_pow2 by lia. f_equal. f_equal. lia. }
  rewrite div_eucl_exact by lia.
  change (new_location 1000000 0) with loc_Exact.
  replace e' with (e - (e - e')) at 2 by lia.
  apply binary_round_aux_exact; [assumption | lia].
Qed.

Lemma shr_1_nonneg (mrs : shr_record) :
  0 <= shr_m mrs -> 0 <= shr_m (shr_1 mrs).
Proof.
  destruct mrs as [[|[p|p|]|p] r s]; cbn [shr_1 shr_m]; lia.
Qed.

Lemma shr_fexp_nonneg (m e : Z) (l : location) :
  0 <= m -> 0 <= shr_m (fst (shr_fexp prec emax m e l)).
Proof.
  intros Hm. unfold shr_fexp, shr.
  assert (0 <= shr_m (shr_record_of_loc m l)) as H0
    by (destruct l as [|[ | | ]]; exact Hm).
  destruct (fexp prec emax (Zdigits2 m + e) - e) as [|p|p]; cbn [fst];
    try exact H0.
  rewrite iter_pos_iter.
  apply (Pos.iter_invariant p _ shr_1 (fun mrs => 0 <= shr_m mrs));
    [exact shr_1_nonneg | exact H0].
Qed.

Lemma binary_round_aux_not_nan (s : bool) (m e : Z) (l : location) :
  0 <= m -> is_nan (binary_round_aux prec emax s m e l) = false.
Proof.
  intros Hm. unfold binary_round_aux.
  pose proof (shr_fexp_nonneg m e l Hm) as H1.
  destruct (shr_fexp prec emax m e l) as [mrs1 e1]. cbn [fst] in H1.
  assert (0 <= round_nearest_even (shr_m mrs1) (loc_of_shr_record mrs1)) as H2.
  { unfold round_nearest_even.
    destruct (loc_of_shr_record mrs1) as [|[ | | ]];
      try destruct (Z.even (shr_m mrs1)); lia. }
  pose proof (shr_fexp_nonneg _ e1 loc_Exact H2) as H3.
  destruct (shr_fexp prec emax _ e1 loc_Exact) as [mrs2 e2]. cbn [fst] in H3.
  destruct (shr_m mrs2) as [|p|p]; [reflexivity| |lia].
  now destruct (e2 <=? emax - prec).
Qed.

Lemma round_decimal_not_nan (s : bool) (m : N) (e10 : Z) :
  is_nan (round_decimal prec emax s m e10) = false.
Proof.
  unfold round_decimal. destruct m as [|p]; [reflexivity|].
  destruct (0 <=? e10) eqn:E.
  - apply Z.leb_le in E.
    assert (0 < Zpos p * 10 ^ e10) as Hpos
      by (apply Z.mul_pos_pos; [lia | apply Z.pow_pos_nonneg; lia]).
    destruct (Zpos p * 10 ^ e10) as [|q|q]; try lia.
    destruct s; cbn [cond_Zopp Z.opp binary_normalize];
      unfold binary_round;
      match goal with
      | |- context [shl_align ?a ?b ?c] => destruct (shl_align a b c)
      end; apply binary_round_aux_not_nan; lia.
  - apply Z.leb_gt in E. unfold SFdiv_core_binary.
    match goal with
    | |- context [Z.div_eucl ?a ?b] =>
        pose proof (Z.div_pos a b) as Hq;
        assert (0 <= a) as Ha;
        [|assert (0 < b) as Hb by (apply Z.pow_pos_nonneg; lia);
          specialize (Hq Ha Hb); unfold Z.div in Hq;
          destruct (Z.div_eucl a b) as [q r]]
    end.
    + match goal with
      | |- 0 <= match ?x with _ => _ end => destruct x
      end; try lia.
      rewrite Z.shiftl_mul_pow2 by lia.
      apply Z.mul_nonneg_nonneg; [lia | apply Z.pow_nonneg; lia].
    + now apply binary_round_aux_not_nan.
Qed.

Lemma millionths_exact (s : bool) (m : positive) (e : Z) :
  whole_millionths (S754_finite s m e) = true ->
  exists M : positive,
    millionths m e = Npos M /\
    Zpos M * 2 ^ Z.max 0 (- e) = Zpos m * 2 ^ Z.max 0 e * 1000000.
Proof.
  unfold whole_millionths, millionths. intros H.
  destruct e as [|k|k].
  - exists (m * 1 * 1000000)%positive. split; [reflexivity | cbn; lia].
  - assert (exists P : positive, (2 ^ Z.to_N (Zpos k))%N = Npos P
                                 /\ Zpos P = 2 ^ Zpos k) as (P & EP & HP).
    { cbn [Z.to_N].
      destruct (2 ^ Npos k)%N as [|P] eqn:EP.
      - apply N.pow_eq_0_iff in EP. destruct EP as [_ EP]. discriminate.
      - exists P. split; [reflexivity|].
        apply (f_equal Z.of_N) in EP. rewrite N2Z.inj_pow in EP.
        cbn [Z.of_N] in EP. now rewrite <- EP. }
    rewrite EP. exists (m * P * 1000000)%positive. split; [reflexivity|].
    rewrite (Z.max_l 0 (- Zpos k)), (Z.max_r 0 (Zpos k)), Z.pow_0_r by lia.
    rewrite !Pos2Z.inj_mul, HP. lia.
  - apply N.eqb_eq in H.
    set (n := (Npos m * 1000000)%N) in *. set (d := (2 ^ Npos k)%N) in *.
    assert (d <> 0%N) as Hd by (subst d; apply N.pow_nonzero; discriminate).
    pose proof (N.div_mod n d Hd) as E. rewrite H, N.add_0_r in E.
    unfold div_round_even. rewrite H.
    replace (2 * 0 ?= d)%N with Lt
      by (symmetry; apply N.compare_lt_iff; lia).
    destruct (n / d)%N as [|M] eqn:EM; [subst n; lia|].
    exists M. split; [reflexivity|].
    rewrite (Z.max_r 0 (- Zneg k)), (Z.max_l 0 (Zneg k)), Z.pow_0_r by lia.
    apply (f_equal Z.of_N) in E. subst n d.
    rewrite !N2Z.inj_mul, N2Z.inj_pow in E. cbn [Z.of_N Z.opp] in *. lia.
Qed.
End Exact.
End RoundingFacts.

(** ** The adapter, step by step *)

Section AdapterFacts.
Context {Transformer : Type} {engine : Engine Transformer}.
Context {T : Type} {codec : Codec T} {element : TensorElement T}.
Variable ticks_per_second : Z.

Lemma engine_activity_nil (w : World T) : engine_activity [] [] w = w.
Proof. destruct w. unfold engine_activity. simpl. now rewrite !app_nil_r. Qed.

Lemma engine_activity_compose cs1 rows1 cs2 rows2 (w : World T) :
  engine_activity cs2 rows2 (engine_activity cs1 rows1 w)
  = engine_activity (cs1 ++ cs2) (rows1 ++ rows2) w.
Proof. unfold engine_activity. simpl. now rewrite !app_assoc. Qed.

Lemma written_nil (w : World T) : written [] [] [] [] w = w.
Proof. destruct w. unfold written. simpl. now rewrite !app_nil_r. Qed.

Lemma written_compose a1 t1 k1 d1 a2 t2 k2 d2 (w : World T) :
  written a2 t2 k2 d2 (written a1 t1 k1 d1 w)
  = written (a1 ++ a2) (t1 ++ t2) (k1 ++ k2) (d1 ++ d2) w.
Proof. unfold written. simpl. now rewrite !app_assoc. Qed.

Lemma for_each_callback (l : list OutputType) (w : World T) :
  for_each callback_fn l w = (engine_activity [] l w, Ok tt).
Proof.
  revert w. induction l as [|x l IH]; intros w.
  - simpl. unfold ret. now rewrite engine_activity_nil.
  - simpl. unfold bind, callback_fn, modify. rewrite IH.
    unfold engine_activity. simpl. now rewrite <- !app_assoc.
Qed.

Lemma call_execute_spec (tr : Transformer) (o : InputRow) (w : World T) :
  call_execute tr o w =
  (engine_activity [ExecuteCall o] (fst (execute tr o)) w,
   of_engine (snd (execute tr o))).
Proof.
  unfold call_execute, bind, modify, lift. simpl.
  rewrite for_each_callback. unfold engine_activity. simpl.
  now rewrite !app_nil_r.
Qed.

Lemma call_flush_spec (tr : Transformer) (w : World T) :
  call_flush tr w =
  (engine_activity [FlushCall] (fst (flush tr)) w, of_engine (snd (flush tr))).
Proof.
  unfold call_flush, bind, modify, lift. simpl.
  rewrite for_each_callback. unfold engine_activity. simpl.
  now rewrite !app_nil_r.
Qed.

Lemma nth_tl {A : Type} (l : list A) (i : nat) (d : A) :
  nth i (tl l) d = nth (S i) l d.
Proof. destruct l; simpl; [now destruct i | reflexivity]. Qed.

(** The loop from row [row] on, with [times_data] pointing at that row's
    timestamp: it is the engine run on the observations it builds. *)
Lemma feed_rows_spec n : forall row times_data keys_data data_data
    keys_per_row columns (tr : Transformer) (w : World T),
  let obs :=
    map (fun i => make_tuple_row ticks_per_second keys_data data_data
                    keys_per_row columns (row + Z.of_nat i)
                    (nth i times_data 0%Z))
        (seq 0 n) in
  feed_rows ticks_per_second n row times_data keys_data data_data
    keys_per_row columns tr w
  = (engine_activity (map ExecuteCall (executed tr obs))
       (fst (run_executes tr obs)) w,
     of_engine (snd (run_executes tr obs))).
Proof.
  induction n as [|n IH]; intros row td kd dd K C tr w obs.
  - simpl. unfold ret. now rewrite engine_activity_nil.
  - subst obs. rewrite <- cons_seq, <- seq_shift. cbn [map]. rewrite map_map.
    cbn [feed_rows]. unfold bind. rewrite call_execute_spec.
    replace (row + Z.of_nat 0)%Z with row by lia.
    replace (nth 0 td 0%Z) with (hd 0%Z td) by (now destruct td).
    set (o := make_tuple_row ticks_per_second kd dd K C row (hd 0%Z td)).
    cbn [run_executes executed].
    destruct (snd (execute tr o)) as [tr'|e] eqn:E; cbn [of_engine].
    + rewrite IH. rewrite engine_activity_compose.
      assert (map (fun i => make_tuple_row ticks_per_second kd dd K C
                              (row + 1 + Z.of_nat i) (nth i (tl td) 0%Z))
                  (seq 0 n)
              = map (fun x => make_tuple_row ticks_per_second kd dd K C
                              (row + Z.of_nat (S x)) (nth (S x) td 0%Z))
                  (seq 0 n)) as ->.
      { apply map_ext. intros i. rewrite nth_tl. f_equal. lia. }
      reflexivity.
    + reflexivity.
Qed.

Lemma for_each_decode {A : Type} (f : A -> result T)
    (write : T -> World T -> World T) (l : list A) (w : World T) :
  for_each (fun x => y <- lift (f x) ;; modify (write y)) l w
  = (fold_left (fun w y => write y w) (decoded f l) w, decoding f l).
Proof.
  revert w. induction l as [|x l IH]; intros w.
  - reflexivity.
  - cbn [for_each decoded decoding]. unfold bind at 1. unfold bind at 1.
    unfold lift at 1.
    destruct (f x) as [y|e]; [|reflexivity].
    unfold modify at 1. cbn [fold_left]. apply IH.
Qed.

Lemma write_keys_spec (ks : list T) (w : World T) :
  fold_left (fun w y => write_key y w) ks w = written [] [] ks [] w.
Proof.
  revert w. induction ks as [|k ks IH]; intros w.
  - simpl. now rewrite written_nil.
  - cbn [fold_left]. rewrite IH. unfold written, write_key. simpl.
    now rewrite !app_nil_r, <- !app_assoc.
Qed.

Lemma write_data_spec (ds : list T) (w : World T) :
  fold_left (fun w y => write_data y w) ds w = written [] [] [] ds w.
Proof.
  revert w. induction ds as [|d ds IH]; intros w.
  - simpl. now rewrite written_nil.
  - cbn [fold_left]. rewrite IH. unfold written, write_data. simpl.
    now rewrite !app_nil_r, <- !app_assoc.
Qed.

(** One turn of the output loop, case by case. *)
Lemma write_row_spec keys_per_row columns added tp imputed_keys imputed_data
    (w : World T) :
  write_row ticks_per_second keys_per_row columns
    (added, tp, imputed_keys, imputed_data) w
  = let w1 := written [added] [ToSecs ticks_per_second tp] [] [] w in
    if (Z.of_nat (List.length imputed_keys) =? keys_per_row)%Z then
      if (Z.of_nat (List.length imputed_data) =? columns)%Z then
        match decoding FromString imputed_keys with
        | Ok _ =>
            (written [] [] (decoded FromString imputed_keys)
               (decoded FromStringOptional imputed_data) w1,
             decoding FromStringOptional imputed_data)
        | Throw e =>
            (written [] [] (decoded FromString imputed_keys) [] w1, Throw e)
        end
      else (w1, Throw (EnforceColumns (List.length imputed_data) columns))
    else (w1, Throw (EnforceKeys (List.length imputed_keys) keys_per_row)).
Proof.
  unfold write_row.
  unfold bind at 1. unfold modify at 1.
  unfold bind at 1. unfold modify at 1.
  assert (write_time (ToSecs ticks_per_second tp) (write_added added w)
          = written [added] [ToSecs ticks_per_second tp] [] [] w) as ->.
  { unfold written, write_time, write_added. simpl. now rewrite !app_nil_r. }
  set (w1 := written [added] [ToSecs ticks_per_second tp] [] [] w).
  cbv zeta.
  unfold bind at 1. unfold enforce at 1.
  destruct (Z.of_nat (List.length imputed_keys) =? keys_per_row)%Z;
    [|reflexivity].
  unfold ret at 1. unfold bind at 1. unfold enforce at 1.
  destruct (Z.of_nat (List.length imputed_data) =? columns)%Z;
    [|reflexivity].
  unfold ret at 1. unfold bind at 1.
  rewrite for_each_decode, write_keys_spec.
  destruct (decoding FromString imputed_keys) as [[]|e]; [|reflexivity].
  rewrite for_each_decode, write_data_spec, written_compose.
  cbn [app]. now rewrite app_nil_r.
Qed.

Lemma observations_loop times_data keys_data data_data keys_per_row columns n :
  map (fun i => make_tuple_row ticks_per_second keys_data data_data
                  keys_per_row columns (0 + Z.of_nat i)
                  (nth i times_data 0%Z))
      (seq 0 n)
  = observations ticks_per_second times_data keys_data data_data
      keys_per_row columns n.
Proof. unfold observations. apply map_ext. intros i. reflexivity. Qed.

(** [TimeSeriesImputerTransformerImpl], laid out along the ways it can end. *)
Lemma Impl_unfold (ctx : Inputs) (rows : Z) (w : World T) :
  TimeSeriesImputerTransformerImpl ticks_per_second ctx rows w =
  match Data_uint8 (input_state ctx) with
  | Throw e => (w, Throw e)
  | Ok state_data =>
      let image :=
        firstn (Z.to_nat (Size (Shape (input_state ctx)))) state_data in
      let w0 := record_call (ConstructCall image) w in
      match construct image with
      | Throws what => (w0, Throw (EngineThrew what))
      | Returns tr0 =>
          match Data_int64 (input_times ctx) with
          | Throw e => (w0, Throw e)
          | Ok times_data =>
              match Data (input_keys ctx) with
              | Throw e => (w0, Throw e)
              | Ok keys_data =>
                  match Data (input_data ctx) with
                  | Throw e => (w0, Throw e)
                  | Ok data_data =>
                      let keys_per_row := dim (Shape (input_keys ctx)) 1 in
                      let columns := dim (Shape (input_data ctx)) 1 in
                      let obs :=
                        observations ticks_per_second times_data keys_data
                          data_data keys_per_row columns (Z.to_nat rows) in
                      let w1 :=
                        engine_activity (map ExecuteCall (executed tr0 obs))
                          (fst (run_executes tr0 obs)) w0 in
                      match snd (run_executes tr0 obs) with
                      | Throws what => (w1, Throw (EngineThrew what))
                      | Returns tr1 =>
                          let w2 :=
                            engine_activity [FlushCall] (fst (flush tr1)) w1 in
                          match snd (flush tr1) with
                          | Throws what => (w2, Throw (EngineThrew what))
                          | Returns _ =>
                              let n :=
                                Z.of_nat (List.length (output_rows w2)) in
                              for_each
                                (write_row ticks_per_second keys_per_row
                                   columns)
                                (output_rows w2)
                                (allocate
                                   ([n], [n; keys_per_row], [n; columns]) w2)
                          end
                      end
                  end
              end
          end
      end
  end.
Proof.
  unfold TimeSeriesImputerTransformerImpl.
  unfold bind at 1. unfold lift at 1.
  destruct (Data_uint8 (input_state ctx)) as [state_data|e]; [|reflexivity].
  cbv zeta.
  unfold bind at 1. unfold new_transformer at 1.
  unfold bind at 1. unfold modify at 1. unfold lift at 1.
  destruct (construct _) as [tr0|e]; cbn [of_engine]; [|reflexivity].
  unfold bind at 1. unfold lift at 1.
  destruct (Data_int64 (input_times ctx)) as [td|e]; [|reflexivity].
  unfold bind at 1. unfold lift at 1.
  destruct (Data (input_keys ctx)) as [kd|e]; [|reflexivity].
  unfold bind at 1. unfold lift at 1.
  destruct (Data (input_data ctx)) as [dd|e]; [|reflexivity].
  unfold bind at 1. rewrite feed_rows_spec, observations_loop.
  destruct (snd (run_executes tr0 _)) as [tr1|e]; cbn [of_engine];
    [|reflexivity].
  unfold bind at 1. rewrite call_flush_spec.
  destruct (snd (flush tr1)) as [tr2|e]; cbn [of_engine]; [|reflexivity].
  unfold bind at 1. unfold gets at 1.
  unfold bind at 1. unfold modify at 1.
  reflexivity.
Qed.

Lemma decoding_ok_map {A : Type} (f : A -> result T) (l : list A) :
  decoding f l = Ok tt -> map Ok (decoded f l) = map f l.
Proof.
  induction l as [|x l IH]; simpl; [reflexivity|].
  destruct (f x) as [y|e]; [|discriminate].
  intros H. simpl. now rewrite IH.
Qed.

Lemma decoding_ok_length {A : Type} (f : A -> result T) (l : list A) :
  decoding f l = Ok tt -> List.length (decoded f l) = List.length l.
Proof.
  induction l as [|x l IH]; simpl; [reflexivity|].
  destruct (f x) as [y|e]; [|discriminate].
  intros H. simpl. now rewrite IH.
Qed.

(** The output loop touches nothing but the four output arrays. *)
Lemma write_row_frame keys_per_row columns out (w w' : World T) r :
  write_row ticks_per_second keys_per_row columns out w = (w', r) ->
  calls w' = calls w /\ output_rows w' = output_rows w /\
  output_shapes w' = output_shapes w.
Proof.
  destruct out as [[[added tp] ks] ds]. rewrite write_row_spec. cbv zeta.
  destruct (Z.of_nat (List.length ks) =? keys_per_row)%Z;
    [destruct (Z.of_nat (List.length ds) =? columns)%Z;
       [destruct (decoding FromString ks)|]|];
    intros [= <- _]; simpl; auto.
Qed.

Lemma output_loop_frame keys_per_row columns rows : forall (w w' : World T) r,
  for_each (write_row ticks_per_second keys_per_row columns) rows w = (w', r) ->
  calls w' = calls w /\ output_rows w' = output_rows w /\
  output_shapes w' = output_shapes w.
Proof.
  induction rows as [|out rows IH]; intros w w' r.
  - intros [= <- _]. auto.
  - cbn [for_each]. unfold bind at 1.
    destruct (write_row _ _ _ out w) as [w1 [[]|e]] eqn:E;
      apply write_row_frame in E; destruct E as (E1 & E2 & E3).
    + intros H. apply IH in H. destruct H as (H1 & H2 & H3).
      repeat split; congruence.
    + intros [= <- _]. auto.
Qed.

(** A loop that completes has checked and decoded every row. *)
Lemma output_loop_ok keys_per_row columns rows : forall (w w' : World T),
  for_each (write_row ticks_per_second keys_per_row columns) rows w
    = (w', Ok tt) ->
  Forall (arity_ok keys_per_row columns) rows /\
  Forall (fun out => decoding FromString (row_keys out) = Ok tt /\
                     decoding FromStringOptional (row_values out) = Ok tt)
         rows /\
  w' = written (map row_added rows)
         (map (fun out => ToSecs ticks_per_second (row_time out)) rows)
         (flat_map (fun out => decoded FromString (row_keys out)) rows)
         (flat_map (fun out => decoded FromStringOptional (row_values out))
            rows)
         w.
Proof.
  induction rows as [|out rows IH]; intros w w'.
  - intros [= <-]. simpl. now rewrite written_nil.
  - cbn [for_each]. unfold bind at 1.
    destruct out as [[[added tp] ks] ds]. rewrite write_row_spec. cbv zeta.
    destruct (Z.of_nat (List.length ks) =? keys_per_row)%Z eqn:EK;
      [|discriminate].
    destruct (Z.of_nat (List.length ds) =? columns)%Z eqn:EC; [|discriminate].
    destruct (decoding FromString ks) as [[]|e] eqn:Dk; [|discriminate].
    destruct (decoding FromStringOptional ds) as [[]|e] eqn:Dd; [|discriminate].
    intros H. apply IH in H. destruct H as (H1 & H2 & ->).
    repeat split.
    + constructor; [|assumption]. simpl. split; now apply Z.eqb_eq.
    + constructor; [|assumption]. simpl. now split.
    + rewrite !written_compose. reflexivity.
Qed.

Lemma flat_map_length_uniform {A B : Type} (g : A -> list B) (l : list A) k :
  Forall (fun x => List.length (g x) = k) l ->
  List.length (flat_map g l) = List.length l * k.
Proof.
  induction 1 as [|x l Hx _ IH]; simpl; [reflexivity|].
  rewrite length_app, Hx, IH. reflexivity.
Qed.

Lemma slice_flat_map {A B : Type} (g : A -> list B) (l : list A) k :
  Forall (fun x => List.length (g x) = k) l ->
  forall i x, nth_error l i = Some x ->
  firstn k (skipn (i * k) (flat_map g l)) = g x.
Proof.
  induction 1 as [|y l Hy _ IH]; intros i x Hi.
  - destruct i; discriminate.
  - destruct i as [|i]; simpl in Hi.
    + injection Hi as ->. simpl.
      rewrite firstn_app, Hy, Nat.sub_diag. simpl.
      rewrite app_nil_r. rewrite <- Hy. apply firstn_all.
    + cbn [flat_map].
      replace (S i * k) with (List.length (g y) + i * k) by (rewrite Hy; lia).
      rewrite skipn_app, Nat.add_comm, Nat.add_sub.
      rewrite skipn_all2 by lia. simpl. now apply IH.
Qed.

Lemma materialized_after_loop keys_per_row columns rows (w0 : World T) :
  let n := Z.of_nat (List.length rows) in
  Forall (arity_ok keys_per_row columns) rows ->
  Forall (fun out => decoding FromString (row_keys out) = Ok tt /\
                     decoding FromStringOptional (row_values out) = Ok tt)
         rows ->
  materialized ticks_per_second keys_per_row columns rows
    (written (map row_added rows)
       (map (fun out => ToSecs ticks_per_second (row_time out)) rows)
       (flat_map (fun out => decoded FromString (row_keys out)) rows)
       (flat_map (fun out => decoded FromStringOptional (row_values out)) rows)
       (allocate ([n], [n; keys_per_row], [n; columns]) w0)).
Proof.
  intros n Har Hdec. unfold materialized. fold n. cbn [written allocate
    output_shapes added_output time_output keys_output data_output app].
  assert (forall out, In out rows ->
            List.length (decoded FromString (row_keys out))
              = Z.to_nat keys_per_row /\
            List.length (decoded FromStringOptional (row_values out))
              = Z.to_nat columns /\
            keys_per_row = Z.of_nat (Z.to_nat keys_per_row) /\
            columns = Z.of_nat (Z.to_nat columns)) as Hlen.
  { intros out Hin.
    pose proof (proj1 (Forall_forall _ _) Har out Hin) as Ha.
    pose proof (proj1 (Forall_forall _ _) Hdec out Hin) as [Hk Hd].
    destruct out as [[[added tp] ks] ds]. simpl in *.
    destruct Ha as [Ha1 Ha2].
    rewrite (decoding_ok_length _ _ Hk), (decoding_ok_length _ _ Hd).
    lia. }
  assert (Forall (fun out => List.length (decoded FromString (row_keys out))
                             = Z.to_nat keys_per_row) rows) as HK.
  { apply Forall_forall. intros out Hin. now apply Hlen. }
  assert (Forall (fun out =>
                    List.length (decoded FromStringOptional (row_values out))
                    = Z.to_nat columns) rows) as HC.
  { apply Forall_forall. intros out Hin. now apply Hlen. }
  split; [reflexivity|].
  split; [apply length_map|].
  split; [apply length_map|].
  split.
  { rewrite (flat_map_length_uniform _ _ _ HK). subst n.
    destruct rows as [|out rows']; [reflexivity|].
    destruct (Hlen out (or_introl eq_refl)) as (_ & _ & E & _).
    rewrite E at 2. lia. }
  split.
  { rewrite (flat_map_length_uniform _ _ _ HC). subst n.
    destruct rows as [|out rows']; [reflexivity|].
    destruct (Hlen out (or_introl eq_refl)) as (_ & _ & _ & E).
    rewrite E at 2. lia. }
  intros i added tp ks ds Hi.
  pose proof (nth_error_In _ _ Hi) as Hin.
  destruct (Hlen _ Hin) as (_ & _ & EK & EC).
  pose proof (proj1 (Forall_forall _ _) Hdec _ Hin) as [Hk Hd]. simpl in Hk, Hd.
  split; [now rewrite nth_error_map, Hi|].
  split; [now rewrite nth_error_map, Hi|].
  unfold slice.
  split.
  - replace (Z.to_nat (Z.of_nat i * keys_per_row))
      with (i * Z.to_nat keys_per_row) by lia.
    rewrite (slice_flat_map _ _ _ HK i _ Hi). simpl.
    now apply decoding_ok_map.
  - replace (Z.to_nat (Z.of_nat i * columns))
      with (i * Z.to_nat columns) by lia.
    rewrite (slice_flat_map _ _ _ HC i _ Hi). simpl.
    now apply decoding_ok_map.
Qed.

Lemma for_each_app {A : Type} (body : A -> M (World T) unit) (l1 l2 : list A) :
  forall w,
  for_each body (l1 ++ l2) w =
  match for_each body l1 w with
  | (w1, Ok _) => for_each body l2 w1
  | (w1, Throw e) => (w1, Throw e)
  end.
Proof.
  induction l1 as [|x l1 IH]; intros w.
  - reflexivity.
  - cbn [app for_each]. unfold bind.
    destruct (body x w) as [w1 [[]|e]]; [apply IH | reflexivity].
Qed.

Lemma executed_prefix (obs : list InputRow) : forall tr : Transformer,
  exists rest, obs = executed tr obs ++ rest.
Proof.
  induction obs as [|o obs IH]; intros tr.
  - now exists [].
  - cbn [executed]. destruct (snd (execute tr o)) as [tr'|what].
    + destruct (IH tr') as [rest E]. exists rest. cbn [app]. now rewrite <- E.
    + now exists obs.
Qed.

Lemma executed_all (obs : list InputRow) : forall tr tr1 : Transformer,
  snd (run_executes tr obs) = Returns tr1 -> executed tr obs = obs.
Proof.
  induction obs as [|o obs IH]; intros tr tr1.
  - reflexivity.
  - cbn [executed run_executes].
    destruct (snd (execute tr o)) as [tr'|what]; cbn [snd].
    + intros H. now rewrite (IH _ _ H).
    + discriminate.
Qed.

Lemma slice_row_length {A : Type} (p : list A) (rows per_row : Z) (i : nat) :
  Z.of_nat (List.length p) = (rows * per_row)%Z ->
  (0 <= per_row)%Z -> (Z.of_nat i < rows)%Z ->
  Z.of_nat (List.length (slice p (Z.of_nat i * per_row) per_row)) = per_row.
Proof.
  intros Hlen Hpos Hi. unfold slice.
  rewrite length_firstn, length_skipn. nia.
Qed.

(** C7: for a batch of [rows] rows the adapter constructs the engine, calls
    [execute] once for each row index [0 .. rows - 1] in increasing order,
    each time with that row's timestamp and its key and data cells through
    the codec, and then calls [flush] once, with no [execute] after it.
    When a call throws, the calls made are an initial part of that
    sequence, and all of it unless it is an engine call that throws; when
    the tensors are well-formed each observation has [keys_per_row] keys
    and [columns] values.  The calls are the engine's own: each [execute]
    runs on the transformer the call before it left, [flush] on the one the
    last [execute] left, and the rows they hand to the callback are the
    buffer's, in that order; a call that throws ends the invocation with
    its exception, after the rows it had handed over and before any
    further call. *)
Theorem execute_once_per_row_then_flush (ctx : Inputs) (rows : Z)
    (w' : World T) (r : result unit) state_data times_data keys_data data_data :
  Data_uint8 (input_state ctx) = Ok state_data ->
  Data_int64 (input_times ctx) = Ok times_data ->
  Data (input_keys ctx) = Ok keys_data ->
  Data (input_data ctx) = Ok data_data ->
  TimeSeriesImputerTransformerImpl ticks_per_second ctx rows (initial_world T)
    = (w', r) ->
  let keys_per_row := dim (Shape (input_keys ctx)) 1 in
  let columns := dim (Shape (input_data ctx)) 1 in
  let image := firstn (Z.to_nat (Size (Shape (input_state ctx)))) state_data in
  let expected :=
    ConstructCall image
    :: map (fun i => ExecuteCall
                       (observation ticks_per_second times_data keys_data
                          data_data keys_per_row columns i))
           (seq 0 (Z.to_nat rows))
    ++ [FlushCall] in
  (exists rest, expected = calls w' ++ rest) /\
  ((forall what, r <> Throw (EngineThrew what)) -> calls w' = expected) /\
  (forall i, (Z.of_nat i < rows)%Z ->
     Z.of_nat (List.length keys_data) = (rows * keys_per_row)%Z ->
     Z.of_nat (List.length data_data) = (rows * columns)%Z ->
     (0 <= keys_per_row)%Z -> (0 <= columns)%Z ->
     let '(_, str_keys, str_data) :=
       observation ticks_per_second times_data keys_data data_data
         keys_per_row columns i in
     Z.of_nat (List.length str_keys) = keys_per_row /\
     Z.of_nat (List.length str_data) = columns) /\
  match construct image with
  | Throws what =>
      r = Throw (EngineThrew what) /\
      calls w' = [ConstructCall image] /\ output_rows w' = []
  | Returns tr0 =>
      let obs :=
        observations ticks_per_second times_data keys_data data_data
          keys_per_row columns (Z.to_nat rows) in
      match run_executes tr0 obs with
      | (emitted, Throws what) =>
          r = Throw (EngineThrew what) /\
          calls w'
          = ConstructCall image :: map ExecuteCall (executed tr0 obs) /\
          output_rows w' = emitted
      | (emitted, Returns tr1) =>
          calls w' = expected /\
          output_rows w' = emitted ++ fst (flush tr1) /\
          forall what,
            snd (flush tr1) = Throws what -> r = Throw (EngineThrew what)
      end
  end.
Proof.
  intros Hs Ht Hk Hd HI K C image expected.
  assert (expected = ConstructCall image
            :: map ExecuteCall
                 (observations ticks_per_second times_data keys_data data_data
                    K C (Z.to_nat rows)) ++ [FlushCall]) as Hexp.
  { subst expected. unfold observations. now rewrite map_map. }
  rewrite Hexp. clear Hexp expected.
  rewrite Impl_unfold, Hs, Ht, Hk, Hd in HI. cbv zeta in HI.
  fold image K C in HI.
  set (obs := observations ticks_per_second times_data keys_data data_data
                K C (Z.to_nat rows)) in *.
  split; [|split; [|split]].
  - destruct (construct image) as [tr0|what].
    + destruct (snd (run_executes tr0 obs)) as [tr1|what] eqn:E1.
      * rewrite (executed_all _ _ _ E1) in HI.
        destruct (snd (flush tr1)) as [tr2|what].
        -- apply output_loop_frame in HI. destruct HI as (-> & _).
           exists []. cbn. now rewrite app_nil_r.
        -- injection HI as <- _. exists []. cbn. now rewrite app_nil_r.
      * injection HI as <- _.
        destruct (executed_prefix obs tr0) as [rest E].
        exists (map ExecuteCall rest ++ [FlushCall]). cbn.
        rewrite E at 1. now rewrite map_app, <- app_assoc.
    + injection HI as <- _. cbn. now eexists.
  - intros Hr.
    destruct (construct image) as [tr0|what];
      [|injection HI as _ <-; now destruct (Hr what)].
    destruct (snd (run_executes tr0 obs)) as [tr1|what] eqn:E1;
      [|injection HI as _ <-; now destruct (Hr what)].
    rewrite (executed_all _ _ _ E1) in HI.
    destruct (snd (flush tr1)) as [tr2|what];
      [|injection HI as _ <-; now destruct (Hr what)].
    apply output_loop_frame in HI. destruct HI as (-> & _). reflexivity.
  - intros i Hi Hlk Hld HK HC. unfold observation.
    rewrite !length_map. split; now apply slice_row_length with (rows := rows).
  - destruct (construct image) as [tr0|what];
      [|injection HI as <- <-; repeat split].
    cbv zeta.
    destruct (run_executes tr0 obs) as [emitted res] eqn:Erun.
    cbn [fst snd] in HI.
    destruct res as [tr1|what]; [|injection HI as <- <-; repeat split].
    assert (snd (run_executes tr0 obs) = Returns tr1) as E1 by now rewrite Erun.
    rewrite (executed_all _ _ _ E1) in HI.
    destruct (snd (flush tr1)) as [tr2|what].
    + apply output_loop_frame in HI. destruct HI as (-> & -> & _).
      repeat split. intros what H. discriminate H.
    + injection HI as <- <-. repeat split.
      intros what' [= <-]. reflexivity.
Qed.

(** What a completed [TimeSeriesImputerTransformerImpl] went through. *)
Lemma Impl_ok (ctx : Inputs) (rows : Z) (w w' : World T) :
  TimeSeriesImputerTransformerImpl ticks_per_second ctx rows w = (w', Ok tt) ->
  exists state_data times_data keys_data data_data tr0 tr1 tr2,
    Data_uint8 (input_state ctx) = Ok state_data /\
    Data_int64 (input_times ctx) = Ok times_data /\
    Data (input_keys ctx) = Ok keys_data /\
    Data (input_data ctx) = Ok data_data /\
    let keys_per_row := dim (Shape (input_keys ctx)) 1 in
    let columns := dim (Shape (input_data ctx)) 1 in
    let image :=
      firstn (Z.to_nat (Size (Shape (input_state ctx)))) state_data in
    let obs :=
      observations ticks_per_second times_data keys_data data_data
        keys_per_row columns (Z.to_nat rows) in
    let emitted :=
      output_rows w ++ fst (run_executes tr0 obs) ++ fst (flush tr1) in
    let n := Z.of_nat (List.length emitted) in
    construct image = Returns tr0 /\
    snd (run_executes tr0 obs) = Returns tr1 /\
    snd (flush tr1) = Returns tr2 /\
    output_rows w' = emitted /\
    for_each (write_row ticks_per_second keys_per_row columns) emitted
      (allocate ([n], [n; keys_per_row], [n; columns])
         (engine_activity [FlushCall] (fst (flush tr1))
            (engine_activity (map ExecuteCall obs)
               (fst (run_executes tr0 obs))
               (record_call (ConstructCall image) w))))
    = (w', Ok tt).
Proof.
  rewrite Impl_unfold.
  destruct (Data_uint8 (input_state ctx)) as [sd|e]; [|discriminate].
  cbv zeta.
  destruct (construct _) as [tr0|what] eqn:E0; [|discriminate].
  destruct (Data_int64 (input_times ctx)) as [td|e]; [|discriminate].
  destruct (Data (input_keys ctx)) as [kd|e]; [|discriminate].
  destruct (Data (input_data ctx)) as [dd|e]; [|discriminate].
  destruct (snd (run_executes tr0 _)) as [tr1|what] eqn:E1; [|discriminate].
  destruct (snd (flush tr1)) as [tr2|what] eqn:E2; [|discriminate].
  rewrite (executed_all _ _ _ E1).
  intros H. exists sd, td, kd, dd, tr0, tr1, tr2.
  repeat (split; [reflexivity|]). cbv zeta.
  repeat (split; [assumption|]).
  pose proof (output_loop_frame _ _ _ _ _ _ H) as (_ & Hrows & _).
  cbn [engine_activity allocate record_call output_rows] in Hrows, H.
  rewrite <- !app_assoc in Hrows, H.
  split; assumption.
Qed.

(** C2: the output loop checks the arity of every emitted row before it
    decodes any of the row's cells into the key and data arrays.  A row
    with another number of keys than [keys_per_row], or another number of
    values than [columns], throws the [ORT_ENFORCE] failure of that check
    and leaves the key and data arrays as they were; the exception ends
    the loop and with it the invocation (the row's flag and time are by
    then written, none of its keys or values); so when the loop, and the
    invocation, complete, every emitted row has [keys_per_row] keys and
    [columns] values. *)
Theorem arity_enforced_before_encoding (keys_per_row columns : Z) :
  (forall (out : OutputType) (w : World T),
     ~ arity_ok keys_per_row columns out ->
     exists w' e,
       write_row ticks_per_second keys_per_row columns out w = (w', Throw e) /\
       (e = EnforceKeys (List.length (row_keys out)) keys_per_row \/
        e = EnforceColumns (List.length (row_values out)) columns) /\
       keys_output w' = keys_output w /\ data_output w' = data_output w) /\
  (forall (pre post : list OutputType) (out : OutputType) (w w1 : World T),
     for_each (write_row ticks_per_second keys_per_row columns) pre w
       = (w1, Ok tt) ->
     ~ arity_ok keys_per_row columns out ->
     exists w' e,
       for_each (write_row ticks_per_second keys_per_row columns)
         (pre ++ out :: post) w = (w', Throw e) /\
       (e = EnforceKeys (List.length (row_keys out)) keys_per_row \/
        e = EnforceColumns (List.length (row_values out)) columns) /\
       keys_output w' = keys_output w1 /\ data_output w' = data_output w1) /\
  (forall (rows : list OutputType) (w w' : World T),
     for_each (write_row ticks_per_second keys_per_row columns) rows w
       = (w', Ok tt) ->
     Forall (arity_ok keys_per_row columns) rows /\
     Z.of_nat (List.length (keys_output w'))
       = (Z.of_nat (List.length (keys_output w))
          + Z.of_nat (List.length rows) * keys_per_row)%Z /\
     Z.of_nat (List.length (data_output w'))
       = (Z.of_nat (List.length (data_output w))
          + Z.of_nat (List.length rows) * columns)%Z) /\
  (forall (ctx : Inputs) (rows : Z) (w' : World T),
     TimeSeriesImputerTransformerImpl ticks_per_second ctx rows
       (initial_world T) = (w', Ok tt) ->
     Forall (arity_ok (dim (Shape (input_keys ctx)) 1)
               (dim (Shape (input_data ctx)) 1))
            (output_rows w')).
Proof.
  assert (forall (out : OutputType) (w : World T),
     ~ arity_ok keys_per_row columns out ->
     exists w' e,
       write_row ticks_per_second keys_per_row columns out w = (w', Throw e) /\
       (e = EnforceKeys (List.length (row_keys out)) keys_per_row \/
        e = EnforceColumns (List.length (row_values out)) columns) /\
       keys_output w' = keys_output w /\ data_output w' = data_output w)
    as Hrow.
  { intros [[[added tp] ks] ds] w Hbad. rewrite write_row_spec. cbv zeta.
    simpl in Hbad. cbn [row_keys row_values].
    destruct (Z.of_nat (List.length ks) =? keys_per_row)%Z eqn:EK.
    - destruct (Z.of_nat (List.length ds) =? columns)%Z eqn:EC.
      + apply Z.eqb_eq in EK, EC. tauto.
      + eexists; eexists. split; [reflexivity|]. split; [now right|].
        cbn. now rewrite !app_nil_r.
    - eexists; eexists. split; [reflexivity|]. split; [now left|].
      cbn. now rewrite !app_nil_r. }
  split; [exact Hrow|]. split; [|split].
  - intros pre post out w w1 Hpre Hbad.
    rewrite for_each_app, Hpre. cbn [for_each]. unfold bind at 1.
    destruct (Hrow out w1 Hbad) as (w' & e & -> & He & Hk & Hd).
    now exists w', e.
  - intros rows w w' H. apply output_loop_ok in H.
    destruct H as (Har & Hdec & ->). split; [assumption|].
    cbn [written keys_output data_output]. rewrite !length_app.
    rewrite (flat_map_length_uniform _ rows (Z.to_nat keys_per_row)).
    2:{ apply Forall_forall. intros out Hin.
        pose proof (proj1 (Forall_forall _ _) Har out Hin) as Ha.
        pose proof (proj1 (Forall_forall _ _) Hdec out Hin) as [Hk _].
        destruct out as [[[added tp] ks] ds]. simpl in *.
        rewrite (decoding_ok_length _ _ Hk). lia. }
    rewrite (flat_map_length_uniform _ rows (Z.to_nat columns)).
    2:{ apply Forall_forall. intros out Hin.
        pose proof (proj1 (Forall_forall _ _) Har out Hin) as Ha.
        pose proof (proj1 (Forall_forall _ _) Hdec out Hin) as [_ Hd].
        destruct out as [[[added tp] ks] ds]. simpl in *.
        rewrite (decoding_ok_length _ _ Hd). lia. }
    destruct rows as [|out rows']; [cbn; lia|].
    pose proof (Forall_inv Har) as Ha.
    destruct out as [[[added tp] ks] ds]. simpl in Ha. cbn [List.length]. lia.
  - intros ctx rows w' H. apply Impl_ok in H.
    destruct H as (sd & td & kd & dd & tr0 & tr1 & tr2 & _ & _ & _ & _ & H).
    cbv zeta in H. destruct H as (_ & _ & _ & Hrows & Hloop).
    apply output_loop_ok in Hloop. rewrite Hrows. apply Hloop.
Qed.

(** The rows a completed invocation emitted, and its outputs. *)
Lemma Impl_outputs (ctx : Inputs) (rows : Z) (w' : World T) :
  TimeSeriesImputerTransformerImpl ticks_per_second ctx rows (initial_world T)
    = (w', Ok tt) ->
  exists state_data times_data keys_data data_data tr0 tr1,
    Data_uint8 (input_state ctx) = Ok state_data /\
    Data_int64 (input_times ctx) = Ok times_data /\
    Data (input_keys ctx) = Ok keys_data /\
    Data (input_data ctx) = Ok data_data /\
    let keys_per_row := dim (Shape (input_keys ctx)) 1 in
    let columns := dim (Shape (input_data ctx)) 1 in
    let obs :=
      observations ticks_per_second times_data keys_data data_data
        keys_per_row columns (Z.to_nat rows) in
    construct (firstn (Z.to_nat (Size (Shape (input_state ctx)))) state_data)
      = Returns tr0 /\
    snd (run_executes tr0 obs) = Returns tr1 /\
    output_rows w' = fst (run_executes tr0 obs) ++ fst (flush tr1) /\
    Forall (arity_ok keys_per_row columns) (output_rows w') /\
    materialized ticks_per_second keys_per_row columns (output_rows w') w' /\
    last (calls w') FlushCall = FlushCall.
Proof.
  intros H. pose proof H as Hcalls.
  apply Impl_ok in H.
  destruct H as (sd & td & kd & dd & tr0 & tr1 & tr2 & Hs & Ht & Hk & Hd & H).
  cbv zeta in H. destruct H as (E0 & E1 & E2 & Hrows & Hloop).
  cbn [initial_world output_rows app] in Hrows, Hloop.
  exists sd, td, kd, dd, tr0, tr1.
  repeat (split; [assumption|]). cbv zeta.
  repeat (split; [assumption|]).
  pose proof (output_loop_frame _ _ _ _ _ _ Hloop) as (Hc & _).
  apply output_loop_ok in Hloop. destruct Hloop as (Har & Hdec & Hw).
  rewrite Hrows. split; [assumption|]. split.
  - rewrite Hw. now apply materialized_after_loop.
  - rewrite Hc. cbn [allocate engine_activity record_call calls initial_world].
    apply last_last.
Qed.
End AdapterFacts.

(** ** Strings that cannot be converted *)

(** The output loop at a scalar type whose [FromString] throws exactly when
    the string does not begin like a number, as [FromString<float>] and
    [FromString<double>] do. *)
Section ConversionFacts.
Context {Transformer : Type} {engine : Engine Transformer}.
Context {T : Type} {codec : Codec T} {element : TensorElement T}.
Variable ticks_per_second : Z.
Variable target : string.
Variable value : string -> T.
Variable absent : T.

Hypothesis FromString_by_start : forall s : string,
  FromString s
  = if CLib.numeric_start (CLib.c_str s) then Ok (value s)
    else Throw (NotConvertible target s).
Hypothesis FromStringOptional_cases : forall o : option string,
  FromStringOptional o
  = match o with
    | Some s => FromString s
    | None => Ok absent
    end.

Lemma first_unconvertible_app (l1 l2 : list string) :
  first_unconvertible (l1 ++ l2)
  = match first_unconvertible l1 with
    | Some val => Some val
    | None => first_unconvertible l2
    end.
Proof.
  unfold first_unconvertible.
  induction l1 as [|s l1 IH]; [reflexivity|].
  cbn [app find]. now destruct (negb (CLib.numeric_start (CLib.c_str s))).
Qed.

Lemma decoding_keys (ks : list string) :
  decoding FromString ks = conversion target ks.
Proof.
  unfold conversion, first_unconvertible.
  induction ks as [|s ks IH]; [reflexivity|].
  cbn [decoding find]. rewrite FromString_by_start.
  destruct (CLib.numeric_start (CLib.c_str s)); [exact IH | reflexivity].
Qed.

Lemma decoding_values (ds : list (option string)) :
  decoding FromStringOptional ds = conversion target (present ds).
Proof.
  unfold conversion, first_unconvertible.
  induction ds as [|[s|] ds IH]; [reflexivity| |].
  - cbn [decoding present flat_map app find].
    rewrite FromStringOptional_cases, FromString_by_start.
    destruct (CLib.numeric_start (CLib.c_str s)); [exact IH | reflexivity].
  - cbn [decoding present flat_map app]. rewrite FromStringOptional_cases.
    exact IH.
Qed.

Lemma write_row_conversion keys_per_row columns out (w : World T) :
  arity_ok keys_per_row columns out ->
  snd (write_row ticks_per_second keys_per_row columns out w)
  = conversion target (row_strings out).
Proof.
  destruct out as [[[added tp] ks] ds]. intros [Hk Hd].
  rewrite write_row_spec. cbv zeta.
  apply Z.eqb_eq in Hk, Hd. rewrite Hk, Hd.
  unfold conversion, row_strings. cbn [row_keys row_values].
  rewrite first_unconvertible_app.
  rewrite decoding_keys, decoding_values. unfold conversion.
  destruct (first_unconvertible ks); reflexivity.
Qed.

Lemma output_loop_conversion keys_per_row columns rows : forall w : World T,
  Forall (arity_ok keys_per_row columns) rows ->
  snd (for_each (write_row ticks_per_second keys_per_row columns) rows w)
  = conversion target (flat_map row_strings rows).
Proof.
  induction rows as [|out rows IH]; intros w H; [reflexivity|].
  inversion H as [|? ? Hout Hrows]; subst.
  cbn [for_each flat_map]. unfold bind at 1.
  pose proof (write_row_conversion keys_per_row columns out w Hout) as E.
  destruct (write_row ticks_per_second keys_per_row columns out w)
    as [w1 [[]|e]]; cbn [snd] in E.
  - rewrite (IH w1 Hrows). unfold conversion in *.
    rewrite first_unconvertible_app.
    destruct (first_unconvertible (row_strings out)); [discriminate|].
    reflexivity.
  - cbn [snd]. unfold conversion in *. rewrite first_unconvertible_app.
    destruct (first_unconvertible (row_strings out)); [|discriminate].
    exact E.
Qed.

Lemma Impl_conversion (ctx : Inputs) (rows : Z) (w' : World T)
    (r : result unit) state_data times_data keys_data data_data :
  Data_uint8 (input_state ctx) = Ok state_data ->
  Data_int64 (input_times ctx) = Ok times_data ->
  Data (input_keys ctx) = Ok keys_data ->
  Data (input_data ctx) = Ok data_data ->
  TimeSeriesImputerTransformerImpl ticks_per_second ctx rows (initial_world T)
    = (w', r) ->
  let keys_per_row := dim (Shape (input_keys ctx)) 1 in
  let columns := dim (Shape (input_data ctx)) 1 in
  let image := firstn (Z.to_nat (Size (Shape (input_state ctx)))) state_data in
  let obs :=
    observations ticks_per_second times_data keys_data data_data keys_per_row
      columns (Z.to_nat rows) in
  engine_outcome image obs = Returns tt ->
  Forall (arity_ok keys_per_row columns) (output_rows w') ->
  r = conversion target (flat_map row_strings (output_rows w')).
Proof.
  intros Hs Ht Hk Hd HI K C image obs Hout Har.
  rewrite Impl_unfold, Hs, Ht, Hk, Hd in HI. cbv zeta in HI.
  fold image K C obs in HI. unfold engine_outcome in Hout.
  destruct (construct image) as [tr0|what]; [|discriminate].
  destruct (snd (run_executes tr0 obs)) as [tr1|what]; [|discriminate].
  destruct (snd (flush tr1)) as [tr2|what]; [|discriminate].
  pose proof (output_loop_frame _ _ _ _ _ _ _ HI) as (_ & Hrows & _).
  cbn [allocate output_rows] in Hrows. rewrite <- Hrows in HI.
  match type of HI with
  | for_each _ _ ?w = _ =>
      pose proof (output_loop_conversion K C (output_rows w') w Har) as E
  end.
  rewrite HI in E. exact E.
Qed.
End ConversionFacts.

(** ** The kernel *)

Lemma MLDataType_eqb_eq (a b : MLDataType) :
  MLDataType_eqb a b = true <-> a = b.
Proof. destruct a, b; simpl; split; (reflexivity || discriminate). Qed.

Section KernelFacts.
Context {Transformer : Type} {engine : Engine Transformer}.
Variable ticks_per_second : Z.

Lemma Compute_valid (ctx : Inputs) (w : World string) :
  valid_inputs ctx ->
  Compute ticks_per_second ctx w =
  match TimeSeriesImputerTransformerImpl ticks_per_second (T := string) ctx
          (dim (Shape (input_times ctx)) 0) w with
  | (w', Ok _) => (w', Returned Status_OK)
  | (w', Throw e) => (w', Thrown e)
  end.
Proof.
  intros (H1 & H2 & H3 & H4 & H5 & H6). unfold Compute, CheckBatches.
  rewrite H1, H2, H3, H4, H5, H6. cbn [Nat.eqb negb].
  rewrite !Z.eqb_refl.
  now rewrite (proj2 (MLDataType_eqb_eq _ _) eq_refl).
Qed.

(** C1: [Compute] first checks that the timestamps are one-dimensional
    (their length is [rows]), that keys and data are two-dimensional with
    first dimension [rows], and that keys and data have the same element
    type.  Inputs that violate any of these make it return an error status
    and leave the world as it was: the engine is not constructed, no row is
    fed, no output is allocated.  Inputs that satisfy them all reach
    [TimeSeriesImputerTransformerImpl]. *)
Theorem inputs_validated_before_anything_runs (ctx : Inputs)
    (w : World string) :
  (~ valid_inputs ctx ->
   exists code msg,
     Compute ticks_per_second ctx w = (w, Returned (Status_Error code msg))) /\
  (valid_inputs ctx ->
   forall code msg,
     snd (Compute ticks_per_second ctx w) <> Returned (Status_Error code msg)).
Proof.
  split.
  - intros Hbad. unfold Compute, CheckBatches.
    destruct (Nat.eqb (NumDimensions (Shape (input_times ctx))) 1) eqn:E1;
      cbn [negb]; [|now eexists; eexists].
    destruct (Nat.eqb (NumDimensions (Shape (input_keys ctx))) 2) eqn:E2;
      [|now eexists; eexists].
    destruct (dim (Shape (input_times ctx)) 0
              =? dim (Shape (input_keys ctx)) 0)%Z
      eqn:E3; [|now eexists; eexists].
    destruct (Nat.eqb (NumDimensions (Shape (input_data ctx))) 2) eqn:E4;
      [|now eexists; eexists].
    destruct (dim (Shape (input_times ctx)) 0
              =? dim (Shape (input_data ctx)) 0)%Z
      eqn:E5; [|now eexists; eexists].
    destruct (MLDataType_eqb (GetElementType (input_keys ctx))
                (GetElementType (input_data ctx))) eqn:E6;
      cbn [negb]; [|now eexists; eexists].
    exfalso. apply Hbad.
    apply Nat.eqb_eq in E1, E2, E4. apply Z.eqb_eq in E3, E5.
    apply MLDataType_eqb_eq in E6.
    unfold valid_inputs. auto 10.
  - intros Hok code msg. rewrite (Compute_valid _ _ Hok).
    destruct (TimeSeriesImputerTransformerImpl _ _ _ _) as [w' [[]|e]];
      discriminate.
Qed.

Lemma string_decoding (l : list string) :
  decoding (FromString (T := string)) l = Ok tt.
Proof. induction l; simpl; auto. Qed.

Lemma string_decoding_optional (l : list (option string)) :
  decoding (FromStringOptional (T := string)) l = Ok tt.
Proof. induction l as [|[s|] l IH]; simpl; auto. Qed.

(** With strings the output loop can only end well or on an arity check. *)
Lemma string_output_loop keys_per_row columns rows :
  forall (w w' : World string) r,
  for_each (write_row ticks_per_second keys_per_row columns) rows w = (w', r) ->
  r = Ok tt \/
  (exists got, r = Throw (EnforceKeys got keys_per_row)) \/
  (exists got, r = Throw (EnforceColumns got columns)).
Proof.
  induction rows as [|out rows IH]; intros w w' r.
  - intros [= _ <-]. now left.
  - cbn [for_each]. unfold bind at 1.
    destruct out as [[[added tp] ks] ds]. rewrite write_row_spec. cbv zeta.
    destruct (Z.of_nat (List.length ks) =? keys_per_row)%Z.
    + destruct (Z.of_nat (List.length ds) =? columns)%Z.
      * rewrite string_decoding, string_decoding_optional. apply IH.
      * intros [= _ <-]. right. right. now eexists.
    + intros [= _ <-]. right. left. now eexists.
Qed.

Lemma accepted_tensors_are_typed (ctx : Inputs) :
  accepted_by_kernel ctx ->
  (exists state_data, Data_uint8 (input_state ctx) = Ok state_data) /\
  (exists times_data, Data_int64 (input_times ctx) = Ok times_data) /\
  (exists keys_data, Data (T := string) (input_keys ctx) = Ok keys_data) /\
  (exists data_data, Data (T := string) (input_data ctx) = Ok data_data).
Proof.
  unfold accepted_by_kernel, GetElementType, Data_uint8, Data_int64, Data,
    string_element.
  intros (H0 & H1 & H2 & H3).
  destruct (Buffer (input_state ctx)); try discriminate H0.
  destruct (Buffer (input_times ctx)); try discriminate H1.
  destruct (Buffer (input_keys ctx)); try discriminate H2.
  destruct (Buffer (input_data ctx)); try discriminate H3.
  repeat split; eexists; reflexivity.
Qed.

(** With the tensors the kernel is registered for, the invocation ends
    well, on an engine exception or on an arity check. *)
Lemma accepted_Impl_ends (ctx : Inputs) rows (w w' : World string) r :
  accepted_by_kernel ctx ->
  TimeSeriesImputerTransformerImpl ticks_per_second ctx rows w = (w', r) ->
  r = Ok tt \/
  (exists what, r = Throw (EngineThrew what)) \/
  (exists got expected, r = Throw (EnforceKeys got expected)) \/
  (exists got expected, r = Throw (EnforceColumns got expected)).
Proof.
  intros Hacc.
  destruct (accepted_tensors_are_typed ctx Hacc)
    as ((sd & Es) & (td & Et) & (kd & Ek) & (dd & Ed)).
  rewrite Impl_unfold, Es, Et, Ek, Ed. cbv zeta.
  destruct (construct _) as [tr0|what].
  2:{ intros [= _ <-]. right. left. now eexists. }
  destruct (snd (run_executes tr0 _)) as [tr1|what].
  2:{ intros [= _ <-]. right. left. now eexists. }
  destruct (snd (flush tr1)) as [tr2|what].
  2:{ intros [= _ <-]. right. left. now eexists. }
  intros H. apply string_output_loop in H.
  destruct H as [->|[[got ->]|[got ->]]]; [now left| |].
  - right. right. left. now eexists; eexists.
  - right. right. right. now eexists; eexists.
Qed.

(** C10: the kernel is registered for string keys and data and runs
    [TimeSeriesImputerTransformerImpl<std::string>]; there [FromString] and
    [FromStringOptional] return the string they are given (the empty string
    for an absent value) and never throw, so the output loop cannot end
    with the conversion error, and for the tensors the kernel is
    registered for [Compute] ends neither with the conversion error nor
    with a tensor of the wrong type. *)
Theorem string_kernel_never_fails_to_convert :
  constraint_of "T2" = Some type_string /\
  (forall val : string, FromString (T := string) val = Ok val) /\
  (forall val : string, FromStringOptional (T := string) (Some val) = Ok val) /\
  FromStringOptional (T := string) None = Ok EmptyString /\
  (forall keys_per_row columns rows (w w' : World string) r,
     for_each (write_row ticks_per_second keys_per_row columns) rows w
       = (w', r) ->
     forall target val, r <> Throw (NotConvertible target val)) /\
  (forall (ctx : Inputs) (w w' : World string) (c : Completion),
     accepted_by_kernel ctx ->
     Compute ticks_per_second ctx w = (w', c) ->
     (forall target val, c <> Thrown (NotConvertible target val)) /\
     c <> Thrown TensorTypeMismatch).
Proof.
  repeat apply conj; try reflexivity.
  - intros K C rows w w' r H target val.
    apply string_output_loop in H.
    destruct H as [->|[[got ->]|[got ->]]]; discriminate.
  - intros ctx w w' c Hacc H.
    destruct (TimeSeriesImputerTransformerImpl ticks_per_second (T := string)
                ctx (dim (Shape (input_times ctx)) 0) w) as [w1 r] eqn:EI.
    pose proof (accepted_Impl_ends _ _ _ _ _ Hacc EI) as Hr.
    revert H. unfold Compute, CheckBatches. rewrite EI.
    repeat match goal with
           | |- context [if ?b then _ else _] => destruct b
           end;
      try (intros [= _ <-]; split; [intros target val|]; discriminate).
    destruct Hr as [->|[[what ->]|[(g & x & ->)|(g & x & ->)]]];
      intros [= _ <-]; (split; [intros target val|]; discriminate).
Qed.
End KernelFacts.

(** ** The codec, statement by statement *)

Import CLib CLibFacts CodecFacts.

(** C3: how the codec treats absence.  A NaN [float] or [double] encodes to
    no string, and no string decodes to NaN; an empty string encodes to no
    string, and no string decodes to the empty string; every other value
    encodes to a string. *)
Theorem absence_in_the_codec :
  (forall v : float, isnan v = true -> ToStringOptional v = None) /\
  (forall v : double, isnan v = true -> ToStringOptional v = None) /\
  (exists nan : float,
     FromStringOptional None = Ok nan /\ isnan nan = true) /\
  (exists nan : double,
     FromStringOptional None = Ok nan /\ isnan nan = true) /\
  ToStringOptional EmptyString = None /\
  FromStringOptional (T := string) None = Ok EmptyString /\
  (forall v : float,
     isnan v = false -> ToStringOptional v = Some (to_string v)) /\
  (forall v : double,
     isnan v = false -> ToStringOptional v = Some (to_string v)) /\
  (forall v : string, v <> EmptyString -> ToStringOptional v = Some v).
Proof.
  repeat apply conj.
  - intros v H. cbn. unfold ToStringOptional_primary. now rewrite H.
  - intros v H. cbn. unfold ToStringOptional_primary. now rewrite H.
  - exists quiet_NaN. now split.
  - exists quiet_NaN. now split.
  - reflexivity.
  - reflexivity.
  - intros v H. cbn. unfold ToStringOptional_primary. now rewrite H.
  - intros v H. cbn. unfold ToStringOptional_primary. now rewrite H.
  - intros v H. cbn. unfold ToStringOptional_string.
    destruct v; [contradiction | reflexivity].
Qed.

(** *** What is read back from a printed number *)

Module PrintedNumbers.
Import EncodingFacts RoundingFacts.

(** The string printed for a finite value is converted, and to its end. *)
Lemma strto_printed prec emax (sg s : bool) (m : positive) (e : Z) :
  let str := format_f sg (S754_finite s m e) in
  c_str str = str /\
  strto prec emax str
  = (round_decimal prec emax s (millionths m e) (-6), String.length str) /\
  Nat.eqb (String.length str) 0 = false.
Proof.
  intros str.
  destruct (format_f_whole prec emax sg (S754_finite s m e)) as [Hc Hw].
  fold str in Hc, Hw. split; [exact Hc|]. split; [apply strto_format_f|].
  unfold whole_number in Hw. unfold str in Hw at 1.
  rewrite strto_format_f in Hw. cbn [snd] in Hw.
  apply andb_true_iff in Hw. destruct Hw as [Hw _].
  now apply negb_true_iff in Hw.
Qed.

Lemma FromString_double_printed (sg s : bool) (m : positive) (e : Z) :
  FromString_double (format_f sg (S754_finite s m e))
  = Ok (Double (round_decimal 53 1024 s (millionths m e) (-6))).
Proof.
  destruct (strto_printed 53 1024 sg s m e) as (Hc & Hs & Hn).
  unfold FromString_double, strtod. cbv zeta in Hc, Hs, Hn.
  rewrite Hc, Hs, Hn.
  now rewrite double_of_not_nan by apply round_decimal_not_nan.
Qed.

Lemma FromString_float_printed (sg s : bool) (m : positive) (e : Z) :
  FromString_float (format_f sg (S754_finite s m e))
  = Ok (Float (round_decimal 24 128 s (millionths m e) (-6))).
Proof.
  destruct (strto_printed 24 128 sg s m e) as (Hc & Hs & Hn).
  unfold FromString_float, strtof. cbv zeta in Hc, Hs, Hn.
  rewrite Hc, Hs, Hn.
  now rewrite float_of_not_nan by apply round_decimal_not_nan.
Qed.

(** A value of the format that is a whole number of millionths is what
    its six decimals are read as. *)
Lemma whole_millionths_read_back prec emax (x : spec_float) :
  valid_binary prec emax x = true -> whole_millionths x = true ->
  match x with
  | S754_finite s m e =>
      round_decimal prec emax s (millionths m e) (-6) = x
  | _ => True
  end.
Proof.
  destruct x as [s|s| |s m e]; try exact (fun _ _ => I).
  intros Hv Hw. cbn [valid_binary] in Hv.
  destruct (millionths_exact s m e Hw) as (M & -> & HM).
  now apply round_decimal_exact.
Qed.

Lemma same_float_eq (a b : spec_float) : same_float a b = true <-> a = b.
Proof.
  destruct a as [s|s| |s m e], b as [s'|s'| |s' m' e']; cbn [same_float];
    try (split; [discriminate | discriminate]);
    try (rewrite Bool.eqb_true_iff; split; congruence).
  - tauto.
  - rewrite !andb_true_iff, Bool.eqb_true_iff, Pos.eqb_eq, Z.eqb_eq.
    split; [intros [[-> ->] ->]; reflexivity | intros [= -> -> ->]; auto].
Qed.

(** The round trip of a value that is no NaN, by its six decimals. *)
Lemma double_round_trip_iff (v : double) :
  isnan v = false ->
  FromStringOptional (ToStringOptional v) = Ok v <->
  six_decimals_determine 53 1024 (double_val v) = true.
Proof.
  intros Hn. cbn. unfold ToStringOptional_primary. rewrite Hn.
  destruct v as [x|]; [|discriminate Hn].
  destruct x as [s|s| |s m e]; try discriminate Hn.
  - destruct s; vm_compute; split; reflexivity.
  - destruct s; vm_compute; split; reflexivity.
  - change (FromString_double (format_f false (S754_finite s m e))
            = Ok (Double (S754_finite s m e)) <->
            same_float (round_decimal 53 1024 s (millionths m e) (-6))
              (S754_finite s m e) = true).
    rewrite FromString_double_printed, same_float_eq.
    split; [intros [= ->]; reflexivity | intros ->; reflexivity].
Qed.

Lemma float_round_trip_iff (v : float) :
  isnan v = false ->
  FromStringOptional (ToStringOptional v) = Ok v <->
  six_decimals_determine 24 128 (float_val v) = true.
Proof.
  intros Hn. cbn. unfold ToStringOptional_primary. rewrite Hn.
  destruct v as [x|]; [|discriminate Hn].
  destruct x as [s|s| |s m e]; try discriminate Hn.
  - destruct s; vm_compute; split; reflexivity.
  - destruct s; vm_compute; split; reflexivity.
  - change (FromString_float (format_f false (S754_finite s m e))
            = Ok (Float (S754_finite s m e)) <->
            same_float (round_decimal 24 128 s (millionths m e) (-6))
              (S754_finite s m e) = true).
    rewrite FromString_float_printed, same_float_eq.
    split; [intros [= ->]; reflexivity | intros ->; reflexivity].
Qed.
End PrintedNumbers.

Import PrintedNumbers.

(** C4, as the code has it: a string comes back from the codec as it went
    in, through either pair of functors, the empty string by way of the
    absent state; a NaN comes back by way of the absent state as the NaN
    of [quiet_NaN()], which is a fixed point of the round trip; zeros and
    infinities come back as they went in, and so does every number of the
    type that is a whole number of millionths, which the six decimals of
    [std::to_string] write exactly; decoding what was encoded from a
    [float] or a [double] never throws, and any number comes back as the
    number its six decimals are read as, so that it comes back as it went
    in exactly when its six decimals determine it: for some more numbers
    ([0.1]), and not for the rest ([2^-30]). *)
Theorem round_trip_as_far_as_six_decimals_carry :
  (forall v : string, FromStringOptional (ToStringOptional v) = Ok v) /\
  (forall v : string, FromString (ToString v) = Ok v) /\
  (forall v : float,
     isnan v = true ->
     FromStringOptional (ToStringOptional v) = Ok (Float S754_nan) /\
     isnan (Float S754_nan) = true /\
     FromStringOptional (ToStringOptional (Float S754_nan))
       = Ok (Float S754_nan)) /\
  (forall v : double,
     isnan v = true ->
     FromStringOptional (ToStringOptional v) = Ok (Double S754_nan) /\
     isnan (Double S754_nan) = true /\
     FromStringOptional (ToStringOptional (Double S754_nan))
       = Ok (Double S754_nan)) /\
  (forall s : bool,
     FromStringOptional (ToStringOptional (Float (S754_zero s)))
       = Ok (Float (S754_zero s)) /\
     FromStringOptional (ToStringOptional (Float (S754_infinity s)))
       = Ok (Float (S754_infinity s)) /\
     FromStringOptional (ToStringOptional (Double (S754_zero s)))
       = Ok (Double (S754_zero s)) /\
     FromStringOptional (ToStringOptional (Double (S754_infinity s)))
       = Ok (Double (S754_infinity s))) /\
  (forall v : float,
     exists v' : float, FromStringOptional (ToStringOptional v) = Ok v') /\
  (forall v : double,
     exists v' : double, FromStringOptional (ToStringOptional v) = Ok v') /\
  (forall v : float,
     isnan v = false -> valid_binary 24 128 (float_val v) = true ->
     whole_millionths (float_val v) = true ->
     FromStringOptional (ToStringOptional v) = Ok v /\
     FromString (ToString v) = Ok v) /\
  (forall v : double,
     isnan v = false -> valid_binary 53 1024 (double_val v) = true ->
     whole_millionths (double_val v) = true ->
     FromStringOptional (ToStringOptional v) = Ok v /\
     FromString (ToString v) = Ok v) /\
  (forall (s : bool) (m : positive) (e : Z),
     FromStringOptional (ToStringOptional (Float (S754_finite s m e)))
     = Ok (Float (round_decimal 24 128 s (millionths m e) (-6)))) /\
  (forall (s : bool) (m : positive) (e : Z),
     FromStringOptional (ToStringOptional (Double (S754_finite s m e)))
     = Ok (Double (round_decimal 53 1024 s (millionths m e) (-6)))) /\
  (forall v : float,
     isnan v = false ->
     FromStringOptional (ToStringOptional v) = Ok v <->
     six_decimals_determine 24 128 (float_val v) = true) /\
  (forall v : double,
     isnan v = false ->
     FromStringOptional (ToStringOptional v) = Ok v <->
     six_decimals_determine 53 1024 (double_val v) = true).
Proof.
  repeat apply conj.
  - intros [|c v]; reflexivity.
  - reflexivity.
  - intros v H. cbn. unfold ToStringOptional_primary.
    rewrite H. repeat split.
  - intros v H. cbn. unfold ToStringOptional_primary.
    rewrite H. repeat split.
  - intros s. repeat apply conj; destruct s; vm_compute; reflexivity.
  - intros v. cbn. unfold ToStringOptional_primary.
    destruct (isnan v); cbn; [now eexists|].
    rewrite FromString_float_returns; [now eexists|].
    apply format_f_numeric_start.
  - intros v. cbn. unfold ToStringOptional_primary.
    destruct (isnan v); cbn; [now eexists|].
    rewrite FromString_double_returns; [now eexists|].
    apply format_f_numeric_start.
  - intros v Hn Hv Hw.
    assert (FromString (ToString v) = Ok v) as E.
    { destruct v as [x|]; [|discriminate Hn].
      cbn in Hn, Hv, Hw |- *. unfold ToString_primary. cbn.
      pose proof (whole_millionths_read_back 24 128 x Hv Hw) as Hx.
      destruct x as [s|s| |s m e]; try discriminate Hn.
      - destruct s; vm_compute; reflexivity.
      - destruct s; vm_compute; reflexivity.
      - rewrite FromString_float_printed. now rewrite Hx. }
    split; [|exact E].
    cbn. unfold ToStringOptional_primary. rewrite Hn. exact E.
  - intros v Hn Hv Hw.
    assert (FromString (ToString v) = Ok v) as E.
    { destruct v as [x|]; [|discriminate Hn].
      cbn in Hn, Hv, Hw |- *. unfold ToString_primary. cbn.
      pose proof (whole_millionths_read_back 53 1024 x Hv Hw) as Hx.
      destruct x as [s|s| |s m e]; try discriminate Hn.
      - destruct s; vm_compute; reflexivity.
      - destruct s; vm_compute; reflexivity.
      - rewrite FromString_double_printed. now rewrite Hx. }
    split; [|exact E].
    cbn. unfold ToStringOptional_primary. rewrite Hn. exact E.
  - intros s m e. apply (FromString_float_printed false).
  - intros s m e. apply (FromString_double_printed false).
  - apply float_round_trip_iff.
  - apply double_round_trip_iff.
Qed.

(** C4, as claimed, fails for numbers: the double [2^-30] is a value of
    the type, it is not NaN, it encodes to ["0.000000"], and that decodes
    to zero; so does the float [2^-30], and so does a key. *)
Lemma tiny_double_does_not_round_trip :
  valid_binary 53 1024 (double_val tiny_double) = true /\
  isnan tiny_double = false /\
  ToStringOptional tiny_double = Some "0.000000" /\
  FromStringOptional (ToStringOptional tiny_double)
    = Ok (Double (S754_zero false)) /\
  FromStringOptional (ToStringOptional tiny_double) <> Ok tiny_double /\
  valid_binary 24 128 (float_val tiny_float) = true /\
  FromStringOptional (ToStringOptional tiny_float)
    = Ok (Float (S754_zero false)) /\
  FromString (ToString tiny_double) <> Ok tiny_double.
Proof.
  assert (FromStringOptional (ToStringOptional tiny_double)
          = Ok (Double (S754_zero false))) as E by (vm_compute; reflexivity).
  assert (FromString (ToString tiny_double) = Ok (Double (S754_zero false)))
    as E' by (vm_compute; reflexivity).
  repeat apply conj; try (vm_compute; reflexivity).
  - rewrite E. discriminate.
  - rewrite E'. discriminate.
Qed.

Section ConversionErrors.
Context {Transformer : Type} {engine : Engine Transformer}.
Variable ticks_per_second : Z.

(** C5, as the code has it: decoding a string to [float] or [double]
    throws exactly when [strtof] / [strtod] can convert nothing, that is
    when the string, after white space and a sign, does not begin with
    digits, with a point and a digit, with [inf] or with [nan]; otherwise
    it returns what [strtof] / [strtod] converted, which for a string that
    is a number throughout is that number.  The exception aborts the
    transform: a row of the right arity ends its turn of the output loop
    with the conversion error of its first string that cannot be
    converted, keys before values, and an invocation whose engine has
    returned rows of the right arity ends with the conversion error of
    the first such string among all of them, and ends well only when
    there is none. *)
Theorem numeric_decoding_throws_iff_nothing_converts :
  (forall val : string,
     FromString_float val = Throw (NotConvertible "float" val) <->
     numeric_start (c_str val) = false) /\
  (forall val : string,
     FromString_double val = Throw (NotConvertible "double" val) <->
     numeric_start (c_str val) = false) /\
  (forall val : string,
     numeric_start (c_str val) = true ->
     FromString_float val = Ok (fst (strtof (c_str val)))) /\
  (forall val : string,
     numeric_start (c_str val) = true ->
     FromString_double val = Ok (fst (strtod (c_str val)))) /\
  (forall val : string,
     whole_number 24 128 (c_str val) = true ->
     FromString_float val = Ok (fst (strtof (c_str val)))) /\
  (forall val : string,
     whole_number 53 1024 (c_str val) = true ->
     FromString_double val = Ok (fst (strtod (c_str val)))) /\
  (forall (keys_per_row columns : Z) (out : OutputType) (w : World float),
     arity_ok keys_per_row columns out ->
     snd (write_row ticks_per_second keys_per_row columns out w)
     = conversion "float" (row_strings out)) /\
  (forall (keys_per_row columns : Z) (out : OutputType) (w : World double),
     arity_ok keys_per_row columns out ->
     snd (write_row ticks_per_second keys_per_row columns out w)
     = conversion "double" (row_strings out)) /\
  (forall (ctx : Inputs) (rows : Z) (w' : World float) (r : result unit)
          (state_data : list Byte.byte) (times_data : list Z)
          (keys_data data_data : list float),
     Data_uint8 (input_state ctx) = Ok state_data ->
     Data_int64 (input_times ctx) = Ok times_data ->
     Data (input_keys ctx) = Ok keys_data ->
     Data (input_data ctx) = Ok data_data ->
     TimeSeriesImputerTransformerImpl ticks_per_second ctx rows
       (initial_world float) = (w', r) ->
     let keys_per_row := dim (Shape (input_keys ctx)) 1 in
     let columns := dim (Shape (input_data ctx)) 1 in
     engine_outcome
       (firstn (Z.to_nat (Size (Shape (input_state ctx)))) state_data)
       (observations ticks_per_second times_data keys_data data_data
          keys_per_row columns (Z.to_nat rows)) = Returns tt ->
     Forall (arity_ok keys_per_row columns) (output_rows w') ->
     r = conversion "float" (flat_map row_strings (output_rows w'))) /\
  (forall (ctx : Inputs) (rows : Z) (w' : World double) (r : result unit)
          (state_data : list Byte.byte) (times_data : list Z)
          (keys_data data_data : list double),
     Data_uint8 (input_state ctx) = Ok state_data ->
     Data_int64 (input_times ctx) = Ok times_data ->
     Data (input_keys ctx) = Ok keys_data ->
     Data (input_data ctx) = Ok data_data ->
     TimeSeriesImputerTransformerImpl ticks_per_second ctx rows
       (initial_world double) = (w', r) ->
     let keys_per_row := dim (Shape (input_keys ctx)) 1 in
     let columns := dim (Shape (input_data ctx)) 1 in
     engine_outcome
       (firstn (Z.to_nat (Size (Shape (input_state ctx)))) state_data)
       (observations ticks_per_second times_data keys_data data_data
          keys_per_row columns (Z.to_nat rows)) = Returns tt ->
     Forall (arity_ok keys_per_row columns) (output_rows w') ->
     r = conversion "double" (flat_map row_strings (output_rows w'))).
Proof.
  assert (forall prec emax s,
            whole_number prec emax s = true -> numeric_start s = true) as Hw.
  { intros prec emax s H. unfold whole_number in H.
    apply andb_true_iff in H. destruct H as [H _].
    apply negb_true_iff, Nat.eqb_neq in H.
    destruct (numeric_start s) eqn:E; [reflexivity|].
    apply (strto_converts_nothing_iff prec emax) in E. contradiction. }
  assert (forall o : option string,
            FromStringOptional (T := float) o
            = match o with
              | Some s => FromString s
              | None => Ok quiet_NaN
              end) as Hof by (intros [s|]; reflexivity).
  assert (forall o : option string,
            FromStringOptional (T := double) o
            = match o with
              | Some s => FromString s
              | None => Ok quiet_NaN
              end) as Hod by (intros [s|]; reflexivity).
  repeat apply conj.
  - apply FromString_float_throws_iff.
  - apply FromString_double_throws_iff.
  - apply FromString_float_returns.
  - apply FromString_double_returns.
  - intros val H. apply FromString_float_returns. eapply Hw; eauto.
  - intros val H. apply FromString_double_returns. eapply Hw; eauto.
  - intros K C out w.
    exact (write_row_conversion ticks_per_second "float"
             (fun s => fst (strtof (c_str s))) quiet_NaN
             FromString_float_by_start Hof K C out w).
  - intros K C out w.
    exact (write_row_conversion ticks_per_second "double"
             (fun s => fst (strtod (c_str s))) quiet_NaN
             FromString_double_by_start Hod K C out w).
  - intros ctx rows w' r sd td kd dd.
    exact (Impl_conversion ticks_per_second "float"
             (fun s => fst (strtof (c_str s))) quiet_NaN
             FromString_float_by_start Hof ctx rows w' r sd td kd dd).
  - intros ctx rows w' r sd td kd dd.
    exact (Impl_conversion ticks_per_second "double"
             (fun s => fst (strtod (c_str s))) quiet_NaN
             FromString_double_by_start Hod ctx rows w' r sd td kd dd).
Qed.
End ConversionErrors.

(** C5, as claimed, fails: ["12abc"] is not a number, and decoding it does
    not throw but returns 12. *)
Lemma number_followed_by_text_is_decoded :
  whole_number 53 1024 (c_str "12abc") = false /\
  FromString_double "12abc" = Ok twelve /\
  ~ ((exists e, FromString_double "12abc" = Throw e) <->
     whole_number 53 1024 (c_str "12abc") = false).
Proof.
  assert (FromString_double "12abc" = Ok twelve) as E
    by (vm_compute; reflexivity).
  assert (whole_number 53 1024 (c_str "12abc") = false) as W
    by (vm_compute; reflexivity).
  repeat apply conj; try assumption.
  intros [_ H]. destruct (H W) as [e He]. rewrite E in He. discriminate.
Qed.

(** C6: keys go through [ToString] and [FromString], which know no absent
    state: [ToString] returns a string for every key, the one
    [ToStringOptional] gives for a key that is not NaN (not empty), and
    [FromString] of that string does not throw. *)
Theorem keys_encode_and_decode_without_absence :
  (forall v : string, FromString (ToString v) = Ok v) /\
  (forall v : float, exists v' : float, FromString (ToString v) = Ok v') /\
  (forall v : double, exists v' : double, FromString (ToString v) = Ok v') /\
  (forall v : string,
     v <> EmptyString -> ToStringOptional v = Some (ToString v)) /\
  (forall v : float,
     isnan v = false -> ToStringOptional v = Some (ToString v)) /\
  (forall v : double,
     isnan v = false -> ToStringOptional v = Some (ToString v)).
Proof.
  repeat apply conj.
  - reflexivity.
  - intros v. cbn. rewrite FromString_float_returns; [now eexists|].
    apply format_f_numeric_start.
  - intros v. cbn. rewrite FromString_double_returns; [now eexists|].
    apply format_f_numeric_start.
  - intros v H. destruct v; [contradiction | reflexivity].
  - intros v H. cbn. unfold ToStringOptional_primary. now rewrite H.
  - intros v H. cbn. unfold ToStringOptional_primary. now rewrite H.
Qed.

(** ** The outputs *)

Section OutputFacts.
Context {Transformer : Type} {engine : Engine Transformer}.
Context {T : Type} {codec : Codec T} {element : TensorElement T}.
Variable ticks_per_second : Z.

(** C8: when the invocation completes, the buffer holds the rows emitted
    during the [execute] calls followed by those emitted during [flush], in
    emission order; the outputs are allocated after [flush], with the
    number of buffered rows as first dimension, and entry [i] of each of
    the four arrays comes from buffered row [i]: its flag, its time in
    seconds, its keys through [FromString] and its values through
    [FromStringOptional], which turns an absent value into the empty string
    or NaN.  The number of rows is the engine's choice: on the two-row
    example it can be smaller than, equal to or greater than two. *)
Theorem output_arrays_hold_the_emitted_rows (ctx : Inputs) (rows : Z)
    (w' : World T) :
  (TimeSeriesImputerTransformerImpl ticks_per_second ctx rows (initial_world T)
     = (w', Ok tt) ->
   exists state_data times_data keys_data data_data tr0 tr1,
     Data_uint8 (input_state ctx) = Ok state_data /\
     Data_int64 (input_times ctx) = Ok times_data /\
     Data (input_keys ctx) = Ok keys_data /\
     Data (input_data ctx) = Ok data_data /\
     let keys_per_row := dim (Shape (input_keys ctx)) 1 in
     let columns := dim (Shape (input_data ctx)) 1 in
     let obs :=
       observations ticks_per_second times_data keys_data data_data
         keys_per_row columns (Z.to_nat rows) in
     construct (firstn (Z.to_nat (Size (Shape (input_state ctx)))) state_data)
       = Returns tr0 /\
     snd (run_executes tr0 obs) = Returns tr1 /\
     output_rows w' = fst (run_executes tr0 obs) ++ fst (flush tr1) /\
     Forall (arity_ok keys_per_row columns) (output_rows w') /\
     materialized ticks_per_second keys_per_row columns (output_rows w') w' /\
     last (calls w') FlushCall = FlushCall) /\
  (FromStringOptional (T := string) None = Ok EmptyString /\
   FromStringOptional (T := float) None = Ok (Float S754_nan) /\
   FromStringOptional (T := double) None = Ok (Double S754_nan)) /\
  (forall cmp : comparison,
     exists script,
       let run :=
         Compute (engine := scripted_engine script) 1000000000 example_ctx
           (initial_world string) in
       snd run = Returned Status_OK /\
       (Z.of_nat (List.length (output_rows (fst run)))
          ?= dim (Shape (input_times example_ctx)) 0)%Z = cmp).
Proof.
  split; [apply Impl_outputs|]. split; [repeat apply conj; reflexivity|].
  intros [ | | ].
  - exists same_count_script. vm_compute. now split.
  - exists fewer_rows_script. vm_compute. now split.
  - exists example_script. vm_compute. now split.
Qed.
End OutputFacts.

(** ** The statements at work on examples *)

(** The spec's example: two rows a second apart twice over, the second
    without a value, give three rows. *)
Example end_to_end_example :
  Compute (engine := scripted_engine example_script) 1000000000 example_ctx
    (initial_world string)
  = ({| calls := [ConstructCall [];
                  ExecuteCall (0%Z, ["A"], [Some "5.0"]);
                  ExecuteCall (2000000000%Z, ["A"], [None]);
                  FlushCall];
        output_rows := [(false, 0%Z, ["A"], [Some "5.0"]);
                        (true, 1000000000%Z, ["A"], [Some "5.0"]);
                        (false, 2000000000%Z, ["A"], [Some "5.0"])];
        output_shapes := Some ([3%Z], [3%Z; 1%Z], [3%Z; 1%Z]);
        added_output := [false; true; false];
        time_output := [0%Z; 1%Z; 2%Z];
        keys_output := ["A"; "A"; "A"];
        data_output := ["5.0"; "5.0"; "5.0"] |},
     Returned Status_OK).
Proof. vm_compute. reflexivity. Qed.

Lemma misshapen_times_are_rejected :
  ~ valid_inputs misshapen_ctx /\
  exists code msg,
    Compute (engine := echo_engine) 1000000000 misshapen_ctx
      (initial_world string)
    = (initial_world string, Returned (Status_Error code msg)).
Proof.
  assert (~ valid_inputs misshapen_ctx) as H.
  { intros [H _]. discriminate H. }
  split; [exact H|].
  exact (proj1 (inputs_validated_before_anything_runs (engine := echo_engine)
                  1000000000 misshapen_ctx (initial_world string)) H).
Defined.

Lemma row_without_keys_is_refused :
  ~ arity_ok 1 1 (false, 0%Z, [], [Some "5.0"]) /\
  exists (w' : World string) e,
    write_row 1000000000 1 1 (false, 0%Z, [], [Some "5.0"])
      (initial_world string) = (w', Throw e) /\
    (e = EnforceKeys 0 1 \/ e = EnforceColumns 1 1) /\
    keys_output w' = [] /\ data_output w' = [].
Proof.
  assert (~ arity_ok 1 1 (false, 0%Z, [], [Some "5.0"])) as H.
  { intros [H _]. discriminate H. }
  split; [exact H|].
  exact (proj1 (arity_enforced_before_encoding (engine := echo_engine)
                  (T := string) 1000000000 1 1)
           (false, 0%Z, [], [Some "5.0"]) (initial_world string) H).
Defined.

Lemma nan_encodes_to_absent : ToStringOptional (Float S754_nan) = None.
Proof. exact (proj1 absence_in_the_codec (Float S754_nan) eq_refl). Defined.

Lemma twelve_comes_back :
  isnan twelve = false /\
  valid_binary 53 1024 (double_val twelve) = true /\
  whole_millionths (double_val twelve) = true /\
  FromStringOptional (ToStringOptional twelve) = Ok twelve /\
  FromString (ToString twelve) = Ok twelve.
Proof.
  split; [reflexivity|]. split; [reflexivity|]. split; [reflexivity|].
  exact (proj1 (proj2 (proj2 (proj2 (proj2 (proj2 (proj2 (proj2 (proj2
           round_trip_as_far_as_six_decimals_carry))))))))
           twelve eq_refl eq_refl eq_refl).
Defined.

(** The double nearest to [0.1] is no whole number of millionths, and
    comes back all the same. *)
Example tenth_comes_back :
  whole_millionths (double_val tenth) = false /\
  six_decimals_determine 53 1024 (double_val tenth) = true /\
  ToStringOptional tenth = Some "0.100000" /\
  FromStringOptional (ToStringOptional tenth) = Ok tenth /\
  six_decimals_determine 53 1024 (double_val tiny_double) = false.
Proof. vm_compute. repeat split. Qed.

(** A NaN whose sign bit is set is written [-nan] as a key and read back
    with the bit set; as a value it is absent, and comes back as
    [quiet_NaN()]. *)
Example minus_nan_through_the_codec :
  ToString Double_minus_nan = "-nan" /\
  FromString "-nan" = Ok Double_minus_nan /\
  ToStringOptional Double_minus_nan = None /\
  FromStringOptional (ToStringOptional Double_minus_nan)
    = Ok (Double S754_nan).
Proof. vm_compute. auto. Qed.

Lemma twelve_abc_decodes :
  numeric_start (c_str "12abc") = true /\
  FromString_double "12abc" = Ok (fst (strtod (c_str "12abc"))) /\
  first_unconvertible (flat_map row_strings (output_rows (fst corrupt_run)))
    = Some "abc" /\
  snd corrupt_run = Throw (NotConvertible "double" "abc").
Proof.
  split; [reflexivity|]. split.
  { exact (proj1 (proj2 (proj2 (proj2
                    (numeric_decoding_throws_iff_nothing_converts
                       (engine := echo_engine) 1000000000))))
             "12abc" eq_refl). }
  assert (output_rows (fst corrupt_run)
          = [(false, 0%Z, ["12.000000"], [None]);
             (true, 1000000000%Z, ["12.000000"], [Some "abc"]);
             (true, 2000000000%Z, ["12.000000"], [Some "1.5"])]) as Erows
    by (vm_compute; reflexivity).
  split; [rewrite Erows; reflexivity|].
  refine (eq_trans
            (proj2 (proj2 (proj2 (proj2 (proj2 (proj2 (proj2 (proj2 (proj2
               (numeric_decoding_throws_iff_nothing_converts
                  (engine := scripted_engine corrupt_script) 1000000000)))))))))
               numeric_ctx 1%Z _ _ [] [0%Z] [twelve] [Double S754_nan]
               eq_refl eq_refl eq_refl eq_refl (surjective_pairing _) _ _) _).
  - vm_compute. reflexivity.
  - fold corrupt_run. rewrite Erows. repeat constructor.
  - fold corrupt_run. rewrite Erows. reflexivity.
Defined.

Lemma key_A_is_present : ToStringOptional "A" = Some (ToString "A").
Proof.
  refine (proj1 (proj2 (proj2 (proj2 keys_encode_and_decode_without_absence)))
            "A" _).
  discriminate.
Defined.

Lemma example_calls :
  calls (fst example_run)
  = [ConstructCall [];
     ExecuteCall (0%Z, ["A"], [Some "5.0"]);
     ExecuteCall (2000000000%Z, ["A"], [None]);
     FlushCall].
Proof.
  refine (eq_trans
            (proj1 (proj2
               (execute_once_per_row_then_flush
                  (engine := scripted_engine example_script) (T := string)
                  1000000000 example_ctx 2 _ _ [] [0%Z; 2%Z] ["A"; "A"]
                  ["5.0"; ""] eq_refl eq_refl eq_refl eq_refl
                  (surjective_pairing _))) _) _).
  - intros what. vm_compute. discriminate.
  - vm_compute. reflexivity.
Defined.

Lemma example_outputs :
  materialized (T := string) 1000000000 1 1
    [(false, 0%Z, ["A"], [Some "5.0"]);
     (true, 1000000000%Z, ["A"], [Some "5.0"]);
     (false, 2000000000%Z, ["A"], [Some "5.0"])]
    (fst example_run).
Proof.
  assert (example_run = (fst example_run, Ok tt)) as E
    by (vm_compute; reflexivity).
  destruct (proj1 (output_arrays_hold_the_emitted_rows
                     (engine := scripted_engine example_script) (T := string)
                     1000000000 example_ctx 2 _) E)
    as (sd & td & kd & dd & tr0 & tr1 & _ & _ & _ & _ & _ & _ & _ & _ & H & _).
  exact H.
Defined.

Lemma example_never_fails_to_convert :
  accepted_by_kernel example_ctx /\
  forall target val,
    snd (Compute (engine := scripted_engine example_script) 1000000000
           example_ctx (initial_world string))
    <> Thrown (NotConvertible target val).
Proof.
  assert (accepted_by_kernel example_ctx) as H by (repeat split).
  split; [exact H|].
  exact (proj1 (proj2 (proj2 (proj2 (proj2 (proj2
           (string_kernel_never_fails_to_convert
              (engine := scripted_engine example_script) 1000000000)))))
           example_ctx _ _ _ H (surjective_pairing _))).
Defined.

(** ** Order of the output timestamps *)

Section OrderFacts.
Context {Transformer : Type} {engine : Engine Transformer}.
Context {T : Type} {codec : Codec T} {element : TensorElement T}.
Variable ticks_per_second : Z.

End OrderFacts.


(** * More of the code *)

(** ** What numeric decoding overlooks *)

Module LenientDecoding.
Import CLib CLibFacts CodecFacts.

Lemma space_is_not_nul (c : ascii) :
  isspace c = true -> Ascii.eqb c zero = false.
Proof.
  destruct c as [[|] [|] [|] [|] [|] [|] [|] [|]]; vm_compute;
    intros H; (discriminate H || reflexivity).
Qed.

Lemma string_append_nil (s : string) : (s ++ "")%string = s.
Proof. induction s as [|c s IH]; simpl; [|rewrite IH]; reflexivity. Qed.

Lemma c_str_until_nul (a b : string) :
  c_str (a ++ String zero b)%string = c_str a.
Proof.
  induction a as [|c a IH]; [reflexivity|].
  cbn [append c_str]. now rewrite IH.
Qed.

Lemma c_str_after_spaces (ws s : string) :
  all_space ws = true -> c_str (ws ++ s)%string = (ws ++ c_str s)%string.
Proof.
  induction ws as [|c ws IH]; intros H; [reflexivity|].
  cbn [all_space] in H. apply andb_true_iff in H. destruct H as [Hc Hws].
  cbn [append c_str]. rewrite (space_is_not_nul c Hc). now rewrite IH.
Qed.

Lemma skip_spaces_app (ws s : string) :
  all_space ws = true ->
  skip_spaces (ws ++ s)%string
  = (String.length ws + fst (skip_spaces s), snd (skip_spaces s)).
Proof.
  induction ws as [|c ws IH]; intros H.
  - cbn [append String.length]. now destruct (skip_spaces s).
  - cbn [all_space] in H. apply andb_true_iff in H. destruct H as [Hc Hws].
    cbn [append skip_spaces String.length]. rewrite Hc, (IH Hws). reflexivity.
Qed.

(** White space in front changes neither what is converted nor whether
    anything is. *)
Lemma strto_after_spaces prec emax (ws s : string) :
  all_space ws = true ->
  fst (strto prec emax (ws ++ s)%string) = fst (strto prec emax s) /\
  numeric_start (ws ++ s)%string = numeric_start s.
Proof.
  intros H. unfold strto, numeric_start. rewrite (skip_spaces_app ws s H).
  destruct (skip_spaces s) as [nws s1]. cbn [fst snd].
  destruct (scan_sign s1) as [[neg ns] s2].
  split; [|reflexivity].
  destruct (scan_special neg s2) as [[v n]|]; [reflexivity|].
  destruct (scan_hex prec emax neg s2) as [[v n]|]; [reflexivity|].
  destruct (scan_decimal prec emax neg s2) as [[v n]|]; reflexivity.
Qed.

Lemma spaces_convert_nothing (ws : string) :
  all_space ws = true -> numeric_start ws = false.
Proof.
  intros H. unfold numeric_start.
  rewrite <- (string_append_nil ws).
  rewrite (skip_spaces_app ws EmptyString H). reflexivity.
Qed.

Lemma strtod_fst (s : string) :
  fst (strtod s) = double_of (strto_nan_sign s) (fst (strto 53 1024 s)).
Proof. unfold strtod. now destruct (strto 53 1024 s). Qed.

Lemma strtof_fst (s : string) :
  fst (strtof s) = float_of (strto_nan_sign s) (fst (strto 24 128 s)).
Proof. unfold strtof. now destruct (strto 24 128 s). Qed.

Lemma strto_nan_sign_after_spaces (ws s : string) :
  all_space ws = true -> strto_nan_sign (ws ++ s)%string = strto_nan_sign s.
Proof.
  intros H. unfold strto_nan_sign. rewrite (skip_spaces_app ws s H).
  destruct (skip_spaces s) as [nws s1]. reflexivity.
Qed.

(** X3: decoding a string to [double] or [float] overlooks white space in
    front of the number and everything from the first NUL on: with either
    added the result is the same value, or the same failure for the string
    as given.  A string of white space only, the empty string included, is
    not convertible. *)
Theorem numeric_decoding_overlooks_spaces_and_nul :
  (forall ws val : string,
     all_space ws = true ->
     match FromString_double val with
     | Ok v => FromString_double (ws ++ val) = Ok v
     | Throw _ =>
         FromString_double (ws ++ val)
         = Throw (NotConvertible "double" (ws ++ val))
     end) /\
  (forall ws val : string,
     all_space ws = true ->
     match FromString_float val with
     | Ok v => FromString_float (ws ++ val) = Ok v
     | Throw _ =>
         FromString_float (ws ++ val)
         = Throw (NotConvertible "float" (ws ++ val))
     end) /\
  (forall val rest : string,
     match FromString_double val with
     | Ok v => FromString_double (val ++ String zero rest) = Ok v
     | Throw _ =>
         FromString_double (val ++ String zero rest)
         = Throw (NotConvertible "double" (val ++ String zero rest))
     end) /\
  (forall val rest : string,
     match FromString_float val with
     | Ok v => FromString_float (val ++ String zero rest) = Ok v
     | Throw _ =>
         FromString_float (val ++ String zero rest)
         = Throw (NotConvertible "float" (val ++ String zero rest))
     end) /\
  (forall ws : string,
     all_space ws = true ->
     FromString_double ws = Throw (NotConvertible "double" ws) /\
     FromString_float ws = Throw (NotConvertible "float" ws)).
Proof.
  repeat apply conj.
  - intros ws val H.
    rewrite (FromString_double_by_start val),
      (FromString_double_by_start (ws ++ val)).
    rewrite (c_str_after_spaces ws val H), !strtod_fst.
    rewrite (strto_nan_sign_after_spaces ws (c_str val) H).
    destruct (strto_after_spaces 53 1024 ws (c_str val) H) as [-> ->].
    now destruct (numeric_start (c_str val)).
  - intros ws val H.
    rewrite (FromString_float_by_start val),
      (FromString_float_by_start (ws ++ val)).
    rewrite (c_str_after_spaces ws val H), !strtof_fst.
    rewrite (strto_nan_sign_after_spaces ws (c_str val) H).
    destruct (strto_after_spaces 24 128 ws (c_str val) H) as [-> ->].
    now destruct (numeric_start (c_str val)).
  - intros val rest.
    rewrite (FromString_double_by_start val),
      (FromString_double_by_start (val ++ String zero rest)).
    rewrite c_str_until_nul. now destruct (numeric_start (c_str val)).
  - intros val rest.
    rewrite (FromString_float_by_start val),
      (FromString_float_by_start (val ++ String zero rest)).
    rewrite c_str_until_nul. now destruct (numeric_start (c_str val)).
  - intros ws H.
    assert (c_str ws = ws) as Hc.
    { pose proof (c_str_after_spaces ws EmptyString H) as E.
      cbn [c_str] in E. now rewrite !string_append_nil in E. }
    rewrite FromString_double_by_start, FromString_float_by_start, Hc.
    now rewrite (spaces_convert_nothing ws H).
Qed.
End LenientDecoding.

(** ** Seconds and clock ticks *)

(** A product within the clock's range is not wrapped. *)
Lemma wrap64_in_range (z : Z) :
  (int64_min <= z <= int64_max)%Z -> wrap64 z = z.
Proof.
  unfold wrap64, int64_min, int64_max. intros H.
  rewrite Z.mod_small; lia.
Qed.

Lemma ToTimePoint_in_range (ticks_per_second secs : Z) :
  in_clock_range ticks_per_second secs ->
  ToTimePoint ticks_per_second secs = (secs * ticks_per_second)%Z.
Proof. intros H. unfold ToTimePoint. now apply wrap64_in_range. Qed.

(** Beyond the range the product wraps: on a clock that ticks every
    nanosecond timestamps up to [9223372036] are within it, and the next
    one comes back negative. *)
Example ToTimePoint_wraps :
  in_clock_range 1000000000 9223372036 /\
  ~ in_clock_range 1000000000 9223372037 /\
  ToTimePoint 1000000000 9223372037 = (-9223372036709551616)%Z /\
  ToSecs 1000000000 (ToTimePoint 1000000000 9223372037) = (-9223372036)%Z.
Proof.
  unfold in_clock_range, int64_min, int64_max.
  repeat apply conj; try reflexivity; lia.
Qed.

(** X4: on a clock with a positive number of ticks a second, a timestamp
    in seconds whose count of ticks the clock can hold comes back from
    [ToTimePoint] and [ToSecs] unchanged, and [ToSecs] drops a fraction of
    a second towards zero: up to the next second after the epoch, back to
    the previous one before it. *)
Theorem seconds_survive_the_clock (ticks_per_second : Z) :
  (0 < ticks_per_second)%Z ->
  (forall secs : Z,
     in_clock_range ticks_per_second secs ->
     ToSecs ticks_per_second (ToTimePoint ticks_per_second secs) = secs) /\
  (forall secs d : Z,
     in_clock_range ticks_per_second secs ->
     (0 <= secs)%Z -> (0 <= d < ticks_per_second)%Z ->
     ToSecs ticks_per_second (ToTimePoint ticks_per_second secs + d)%Z
     = secs) /\
  (forall secs d : Z,
     in_clock_range ticks_per_second secs ->
     (secs <= 0)%Z -> (- ticks_per_second < d <= 0)%Z ->
     ToSecs ticks_per_second (ToTimePoint ticks_per_second secs + d)%Z
     = secs).
Proof.
  intros Hpos. unfold ToSecs.
  assert (forall s d : Z,
            (0 <= s)%Z -> (0 <= d < ticks_per_second)%Z ->
            Z.quot (s * ticks_per_second + d) ticks_per_second = s) as Hup.
  { intros s d Hs Hd. rewrite Z.quot_div_nonneg by nia.
    rewrite Z.div_add_l by lia. rewrite Z.div_small by lia. lia. }
  repeat apply conj.
  - intros secs Hr. rewrite (ToTimePoint_in_range _ _ Hr).
    apply Z.quot_mul. lia.
  - intros secs d Hr. rewrite (ToTimePoint_in_range _ _ Hr). apply Hup.
  - intros secs d Hr Hs Hd. rewrite (ToTimePoint_in_range _ _ Hr).
    replace (secs * ticks_per_second + d)%Z
      with (- ((- secs) * ticks_per_second + (- d)))%Z by lia.
    rewrite Z.quot_opp_l by lia. rewrite Hup by lia. lia.
Qed.

Lemma seconds_survive_nanoseconds :
  (0 < 1000000000)%Z /\
  in_clock_range 1000000000 1600000000 /\
  ToSecs 1000000000 (ToTimePoint 1000000000 1600000000) = 1600000000%Z.
Proof.
  assert (in_clock_range 1000000000 1600000000) as H
    by (unfold in_clock_range, int64_min, int64_max; lia).
  split; [reflexivity|]. split; [exact H|].
  exact (proj1 (seconds_survive_the_clock 1000000000 eq_refl)
           1600000000%Z H).
Defined.

(** ** The string codec from the other side *)

(** X5: with strings, encoding what was decoded gives back the same
    presence-tagged string, except that a present empty string becomes
    absent: both decode to the empty string, so the output cannot tell
    them apart. *)
Theorem string_encoding_of_decoded :
  (forall o : option string,
     exists s : string,
       FromStringOptional_string o = Ok s /\
       ToStringOptional_string s
       = match o with
         | Some EmptyString => None
         | _ => o
         end) /\
  FromStringOptional_string (Some EmptyString)
  = FromStringOptional_string None /\
  (forall o o' : option string,
     FromStringOptional_string o = FromStringOptional_string o' ->
     o = o' \/ (o = None /\ o' = Some EmptyString) \/
     (o = Some EmptyString /\ o' = None)).
Proof.
  repeat apply conj.
  - intros [[|c s]|]; eexists; split; reflexivity.
  - reflexivity.
  - intros [[|c s]|] [[|c' s']|]; cbn; intros H; try discriminate H; auto;
      injection H as -> ->; auto.
Qed.

(** ** Which check fails first *)

Section ValidationOrder.
Context {Transformer : Type} {engine : Engine Transformer}.
Variable ticks_per_second : Z.

(** X6: [Compute] checks the timestamps, then the keys, then the data, then
    the element types, and reports the first check that fails: its message,
    and for a key or data tensor that is not two-dimensional the code
    [INVALID_ARGUMENT]; a later defect is not looked at. *)
Theorem Compute_reports_the_first_failed_check (ctx : Inputs)
    (w : World string) :
  let rows := dim (Shape (input_times ctx)) 0 in
  let times_ok := NumDimensions (Shape (input_times ctx)) = 1 in
  let keys_ok :=
    NumDimensions (Shape (input_keys ctx)) = 2 /\
    dim (Shape (input_keys ctx)) 0 = rows in
  let data_ok :=
    NumDimensions (Shape (input_data ctx)) = 2 /\
    dim (Shape (input_data ctx)) 0 = rows in
  (~ times_ok ->
   exists code,
     Compute ticks_per_second ctx w
     = (w, Returned
             (Status_Error code "Times must have shape [B][R] or [R]"))) /\
  (times_ok -> NumDimensions (Shape (input_keys ctx)) <> 2 ->
   Compute ticks_per_second ctx w
   = (w, Returned (Status_Error INVALID_ARGUMENT "Expect shape of [R][C]"))) /\
  (times_ok -> NumDimensions (Shape (input_keys ctx)) = 2 ->
   dim (Shape (input_keys ctx)) 0 <> rows ->
   exists code,
     Compute ticks_per_second ctx w
     = (w, Returned (Status_Error code "Number of rows does not match"))) /\
  (times_ok -> keys_ok -> NumDimensions (Shape (input_data ctx)) <> 2 ->
   Compute ticks_per_second ctx w
   = (w, Returned (Status_Error INVALID_ARGUMENT "Expect shape of [R][C]"))) /\
  (times_ok -> keys_ok -> NumDimensions (Shape (input_data ctx)) = 2 ->
   dim (Shape (input_data ctx)) 0 <> rows ->
   exists code,
     Compute ticks_per_second ctx w
     = (w, Returned (Status_Error code "Number of rows does not match"))) /\
  (times_ok -> keys_ok -> data_ok ->
   GetElementType (input_keys ctx) <> GetElementType (input_data ctx) ->
   exists code,
     Compute ticks_per_second ctx w
     = (w, Returned
             (Status_Error code "Keys and data must have the same datatype"))).
Proof.
  intros rows times_ok keys_ok data_ok. subst times_ok keys_ok data_ok rows.
  unfold Compute, CheckBatches.
  repeat apply conj.
  - intros H. apply Nat.eqb_neq in H. rewrite H. now eexists.
  - intros H1 H2. apply Nat.eqb_neq in H2. now rewrite H1, H2.
  - intros H1 H2 H3. rewrite H1, H2. cbn [Nat.eqb negb].
    assert (dim (Shape (input_times ctx)) 0 <> dim (Shape (input_keys ctx)) 0)
      as H3' by congruence.
    apply Z.eqb_neq in H3'. rewrite H3'. now eexists.
  - intros H1 [H2 H3] H4. apply Nat.eqb_neq in H4.
    rewrite H1, H2, H3, H4. cbn [Nat.eqb negb]. now rewrite Z.eqb_refl.
  - intros H1 [H2 H3] H4 H5. rewrite H1, H2, H3, H4. cbn [Nat.eqb negb].
    rewrite Z.eqb_refl.
    assert (dim (Shape (input_times ctx)) 0 <> dim (Shape (input_data ctx)) 0)
      as H5' by congruence.
    apply Z.eqb_neq in H5'. rewrite H5'. now eexists.
  - intros H1 [H2 H3] [H4 H5] H6. rewrite H1, H2, H3, H4, H5.
    cbn [Nat.eqb negb]. rewrite !Z.eqb_refl.
    destruct (MLDataType_eqb (GetElementType (input_keys ctx))
                (GetElementType (input_data ctx))) eqn:E.
    + apply MLDataType_eqb_eq in E. contradiction.
    + now eexists.
Qed.
End ValidationOrder.

Lemma misshapen_times_come_first :
  NumDimensions (Shape (input_times misshapen_ctx)) <> 1 /\
  exists code,
    Compute (engine := echo_engine) 1000000000 misshapen_ctx
      (initial_world string)
    = (initial_world string,
       Returned (Status_Error code "Times must have shape [B][R] or [R]")).
Proof.
  assert (NumDimensions (Shape (input_times misshapen_ctx)) <> 1) as H
    by discriminate.
  split; [exact H|].
  exact (proj1 (Compute_reports_the_first_failed_check (engine := echo_engine)
                  1000000000 misshapen_ctx (initial_world string)) H).
Defined.

(** ** No output before the engine is done *)

Section Allocation.
Context {Transformer : Type} {engine : Engine Transformer}.
Context {T : Type} {codec : Codec T} {element : TensorElement T}.
Variable ticks_per_second : Z.

(** X7: the outputs are allocated only after [flush] has returned.  When
    the constructor, an [execute] or [flush] throws, the invocation ends
    with that exception, no output is allocated and nothing is written;
    when they all return, the outputs are allocated with the number of
    buffered rows as first dimension, whatever happens in the output
    loop. *)
Theorem outputs_wait_for_the_engine (ctx : Inputs) (rows : Z) (w' : World T)
    (r : result unit) state_data times_data keys_data data_data :
  Data_uint8 (input_state ctx) = Ok state_data ->
  Data_int64 (input_times ctx) = Ok times_data ->
  Data (input_keys ctx) = Ok keys_data ->
  Data (input_data ctx) = Ok data_data ->
  TimeSeriesImputerTransformerImpl ticks_per_second ctx rows (initial_world T)
    = (w', r) ->
  let keys_per_row := dim (Shape (input_keys ctx)) 1 in
  let columns := dim (Shape (input_data ctx)) 1 in
  let image := firstn (Z.to_nat (Size (Shape (input_state ctx)))) state_data in
  let obs :=
    observations ticks_per_second times_data keys_data data_data keys_per_row
      columns (Z.to_nat rows) in
  match engine_outcome image obs with
  | Throws what =>
      r = Throw (EngineThrew what) /\
      output_shapes w' = None /\
      added_output w' = [] /\ time_output w' = [] /\
      keys_output w' = [] /\ data_output w' = []
  | Returns _ =>
      let n := Z.of_nat (List.length (output_rows w')) in
      output_shapes w' = Some ([n], [n; keys_per_row], [n; columns]) /\
      last (calls w') FlushCall = FlushCall
  end.
Proof.
  intros Hs Ht Hk Hd HI K C image obs.
  rewrite Impl_unfold, Hs, Ht, Hk, Hd in HI. cbv zeta in HI.
  fold image K C obs in HI. unfold engine_outcome.
  destruct (construct image) as [tr0|what].
  - destruct (snd (run_executes tr0 obs)) as [tr1|what] eqn:E1.
    + destruct (snd (flush tr1)) as [tr2|what].
      * rewrite (executed_all _ _ _ E1) in HI.
        apply output_loop_frame in HI. destruct HI as (Hc & -> & ->).
        cbn [allocate output_shapes]. split; [reflexivity|].
        rewrite Hc.
        cbn [allocate engine_activity record_call calls initial_world].
        apply last_last.
      * injection HI as <- <-. repeat split.
    + injection HI as <- <-. repeat split.
  - injection HI as <- <-. repeat split.
Qed.
End Allocation.

Lemma refused_batch_leaves_no_output :
  snd (TimeSeriesImputerTransformerImpl (engine := refusing_engine)
         (T := string) 1000000000 example_ctx 2 (initial_world string))
  = Throw (EngineThrew "refused") /\
  output_shapes
    (fst (TimeSeriesImputerTransformerImpl (engine := refusing_engine)
            (T := string) 1000000000 example_ctx 2 (initial_world string)))
  = None.
Proof.
  pose proof (outputs_wait_for_the_engine (engine := refusing_engine)
                (T := string) 1000000000 example_ctx 2 _ _
                [] [0%Z; 2%Z] ["A"; "A"] ["5.0"; ""]
                eq_refl eq_refl eq_refl eq_refl (surjective_pairing _)) as H.
  cbv zeta in H. destruct H as (H1 & H2 & _). split; assumption.
Defined.

(** ** A batch through the adapter and back *)

Module EchoFacts.

Lemma map_nth_seq_all {A : Type} (l : list A) (d : A) :
  map (fun i => nth i l d) (seq 0 (List.length l)) = l.
Proof.
  induction l as [|x l IH]; [reflexivity|].
  cbn [List.length]. rewrite <- cons_seq, <- seq_shift. cbn [map nth].
  rewrite map_map. cbn [nth]. now rewrite IH.
Qed.

(** The rows of a buffer, one after the other, make up the buffer. *)
Lemma rows_make_up_the_buffer {A : Type} (k : nat) (n : nat) :
  forall l : list A,
  List.length l = n * k ->
  flat_map (fun i => firstn k (skipn (i * k) l)) (seq 0 n) = l.
Proof.
  induction n as [|n IH]; intros l Hl.
  - destruct l; [reflexivity | discriminate].
  - rewrite <- cons_seq, <- seq_shift. cbn [flat_map].
    rewrite flat_map_concat_map, map_map, <- flat_map_concat_map.
    cbn [Nat.mul skipn].
    rewrite (flat_map_ext _ (fun i => firstn k (skipn (i * k) (skipn k l)))).
    2:{ intros i. rewrite skipn_skipn. f_equal. f_equal. lia. }
    rewrite IH by (rewrite length_skipn; lia).
    apply firstn_skipn.
Qed.

Lemma string_cells_round_trip (l : list string) :
  decoded (FromString (T := string)) (map ToString l) = l /\
  decoded (FromStringOptional (T := string)) (map ToStringOptional l) = l.
Proof.
  induction l as [|x l [IH1 IH2]]; [split; reflexivity|].
  cbn [map decoded]. split.
  - cbn. cbn in IH1. now rewrite IH1.
  - destruct x; cbn; cbn in IH2; now rewrite IH2.
Qed.

Lemma run_echo (obs : list InputRow) (tr : unit) :
  run_executes (engine := echo_engine) tr obs = (map echoed obs, Returns tt).
Proof.
  induction obs as [|[[tp ks] ds] obs IH]; [now destruct tr|].
  cbn [run_executes map]. cbn [execute echo_engine snd fst].
  rewrite IH. destruct tr. reflexivity.
Qed.

Section Loop.
Variable ticks_per_second : Z.

(** With strings, rows of the right arity go through the output loop. *)
Lemma string_output_loop_completes keys_per_row columns rows :
  forall w : World string,
  Forall (arity_ok keys_per_row columns) rows ->
  for_each (write_row ticks_per_second keys_per_row columns) rows w
  = (written (map row_added rows)
       (map (fun out => ToSecs ticks_per_second (row_time out)) rows)
       (flat_map (fun out => decoded FromString (row_keys out)) rows)
       (flat_map (fun out => decoded FromStringOptional (row_values out))
          rows)
       w, Ok tt).
Proof.
  induction rows as [|out rows IH]; intros w H.
  - cbn. unfold ret. now rewrite written_nil.
  - inversion H as [|? ? Hout Hrows]; subst.
    cbn [for_each]. unfold bind at 1.
    destruct out as [[[added tp] ks] ds]. rewrite write_row_spec. cbv zeta.
    destruct Hout as [Hk Hd]. apply Z.eqb_eq in Hk, Hd. rewrite Hk, Hd.
    rewrite string_decoding, string_decoding_optional.
    rewrite (IH _ Hrows). rewrite !written_compose. reflexivity.
Qed.

(** X8: a well-formed string batch whose timestamps the clock can hold, fed
    to an engine that hands every observation back, comes out of [Compute]
    as it went in: status OK, the input shapes, every row marked as not
    added, and the timestamps, keys and data of the input, cell for cell. *)
Theorem echoed_batch_comes_back (ctx : Inputs) state_data times_data
    keys_data data_data (R K C : Z) :
  (0 < ticks_per_second)%Z ->
  Buffer (input_state ctx) = uint8_data state_data ->
  Shape (input_times ctx) = [R] ->
  Buffer (input_times ctx) = int64_data times_data ->
  Z.of_nat (List.length times_data) = R ->
  Forall (in_clock_range ticks_per_second) times_data ->
  Shape (input_keys ctx) = [R; K] ->
  Buffer (input_keys ctx) = string_data keys_data ->
  Z.of_nat (List.length keys_data) = (R * K)%Z -> (0 <= K)%Z ->
  Shape (input_data ctx) = [R; C] ->
  Buffer (input_data ctx) = string_data data_data ->
  Z.of_nat (List.length data_data) = (R * C)%Z -> (0 <= C)%Z ->
  exists w' : World string,
    Compute (engine := echo_engine) ticks_per_second ctx
      (initial_world string) = (w', Returned Status_OK) /\
    output_shapes w' = Some ([R], [R; K], [R; C]) /\
    added_output w' = repeat false (List.length times_data) /\
    time_output w' = times_data /\
    keys_output w' = keys_data /\
    data_output w' = data_data.
Proof.
  intros Hpos Hsb Hts Htb Htl Hrange Hks Hkb Hkl HK Hds Hdb Hdl HC.
  assert (valid_inputs ctx) as Hvalid.
  { unfold valid_inputs, GetElementType. rewrite Hts, Hks, Hds, Hkb, Hdb.
    repeat split. }
  rewrite (Compute_valid _ _ _ Hvalid), Impl_unfold.
  unfold Data_uint8, Data_int64, Data, string_element.
  rewrite Hsb, Htb, Hkb, Hdb. cbv zeta.
  cbn [construct echo_engine].
  rewrite Hts, Hks, Hds. cbn [dim nth].
  set (n := List.length times_data).
  assert (Z.to_nat R = n) as -> by (subst n; lia).
  set (obs := observations ticks_per_second times_data keys_data data_data
                K C n).
  rewrite run_echo. cbn [snd fst flush echo_engine].
  assert (executed (engine := echo_engine) tt obs = obs) as ->.
  { apply (executed_all (engine := echo_engine) obs tt tt).
    now rewrite run_echo. }
  cbn [engine_activity record_call initial_world output_rows app].
  rewrite app_nil_r.
  assert (List.length (map echoed obs) = n) as Hn.
  { subst obs. unfold observations. now rewrite !length_map, length_seq. }
  assert (Forall (arity_ok K C) (map echoed obs)) as Har.
  { apply Forall_forall. intros out Hin.
    apply in_map_iff in Hin. destruct Hin as (o & <- & Hin).
    subst obs. unfold observations in Hin.
    apply in_map_iff in Hin. destruct Hin as (i & <- & Hin).
    apply in_seq in Hin. unfold observation, echoed, arity_ok.
    rewrite !length_map.
    split; apply slice_row_length with (rows := R); lia. }
  rewrite (string_output_loop_completes _ _ _ _ Har).
  eexists. split; [reflexivity|].
  cbn [written allocate output_shapes added_output time_output keys_output
       data_output app].
  rewrite Hn.
  replace (Z.of_nat n) with R by (subst n; lia).
  split; [reflexivity|].
  subst obs. unfold observations. rewrite !map_map, !flat_map_concat_map,
    !map_map, <- !flat_map_concat_map.
  cbn [observation echoed row_added row_time row_keys row_values].
  repeat apply conj.
  - rewrite map_const. now rewrite length_seq.
  - rewrite (map_ext_in _ (fun i => nth i times_data 0%Z)).
    + apply map_nth_seq_all.
    + intros i Hi. apply in_seq in Hi.
      assert (in_clock_range ticks_per_second (nth i times_data 0%Z)) as Hr.
      { apply (proj1 (Forall_forall _ _) Hrange). apply nth_In. lia. }
      rewrite (ToTimePoint_in_range _ _ Hr).
      unfold ToSecs. apply Z.quot_mul. lia.
  - rewrite (flat_map_ext _ (fun i => firstn (Z.to_nat K)
                                        (skipn (i * Z.to_nat K) keys_data))).
    + apply rows_make_up_the_buffer. subst n. nia.
    + intros i. rewrite (proj1 (string_cells_round_trip _)). unfold slice.
      f_equal. f_equal. nia.
  - rewrite (flat_map_ext _ (fun i => firstn (Z.to_nat C)
                                        (skipn (i * Z.to_nat C) data_data))).
    + apply rows_make_up_the_buffer. subst n. nia.
    + intros i. rewrite (proj2 (string_cells_round_trip _)). unfold slice.
      f_equal. f_equal. nia.
Qed.
End Loop.
End EchoFacts.

(** ** The further statements at work on examples *)

Lemma twelve_is_written_as_a_whole_number :
  ToStringOptional twelve = Some "12.000000" /\
  CLib.c_str "12.000000" = "12.000000" /\
  CLib.whole_number 53 1024 "12.000000" = true.
Proof.
  split; [reflexivity|].
  exact (proj2 (proj2 (proj2 EncodingFacts.encoded_numbers_are_whole_numbers))
           twelve "12.000000" eq_refl).
Defined.

Lemma spaces_before_twelve_are_overlooked :
  all_space "  " = true /\ FromString_double "  12" = Ok twelve.
Proof.
  split; [reflexivity|].
  exact (proj1 LenientDecoding.numeric_decoding_overlooks_spaces_and_nul
           "  " "12" eq_refl).
Defined.

Lemma example_batch_comes_back :
  exists w' : World string,
    Compute (engine := echo_engine) 1000000000 example_ctx
      (initial_world string) = (w', Returned Status_OK) /\
    output_shapes w' = Some ([2%Z], [2%Z; 1%Z], [2%Z; 1%Z]) /\
    added_output w' = [false; false] /\
    time_output w' = [0%Z; 2%Z] /\
    keys_output w' = ["A"; "A"] /\
    data_output w' = ["5.0"; ""].
Proof.
  apply (EchoFacts.echoed_batch_comes_back 1000000000 example_ctx
           [] [0%Z; 2%Z] ["A"; "A"] ["5.0"; ""] 2 1 1);
    try (reflexivity || lia).
  repeat constructor; unfold int64_min, int64_max; lia.
Defined.

(** A timestamp beyond the clock's range does not come back: the engine is
    handed the wrapped time point, and the output holds its seconds. *)
Example late_timestamp_is_wrapped :
  ~ in_clock_range 1000000000 9223372037 /\
  exists w' : World string,
    Compute (engine := echo_engine) 1000000000 late_ctx
      (initial_world string) = (w', Returned Status_OK) /\
    calls w'
    = [ConstructCall [];
       ExecuteCall ((-9223372036709551616)%Z, ["A"], [Some "5.0"]);
       FlushCall] /\
    time_output w' = [(-9223372036)%Z].
Proof.
  split.
  - unfold in_clock_range, int64_min, int64_max. lia.
  - eexists. split; [vm_compute; reflexivity|]. split; reflexivity.
Qed.
